(** * writerator: a shallow embedding of [writerator.py]

    The command-line front end of writerator turns a parsed command into a
    list of output lines by calling methods of a [Text] object (module
    [texttools]).  This development embeds the functions of [writerator.py]
    as Rocq functions and states the properties of the specification over
    them.

    Conventions
    - a Python [str] is a [string] (a sequence of one-byte characters);
    - a Python [int] is a [Z];
    - a Python call that may raise, or leave through [sys.exit], returns an
      [outcome];
    - [logging.error] appends to a log that is threaded through [get_output].
*)

From Stdlib Require Import ZArith List String Ascii Bool Lia Arith QArith.
From Stdlib Require Import Numbers.DecimalString Numbers.DecimalZ Numbers.DecimalPos
  Numbers.DecimalFacts.
From Stdlib Require Import Sorting.Sorted Sorting.Permutation.
Import ListNotations.

Local Close Scope Q_scope.
Local Open Scope list_scope.
Local Open Scope string_scope.

(** ** Python values and control effects *)

Module Py.

(** Exceptions that the modelled fragment of Python can raise.  The last
    four are the failure kinds of the text engine. *)
Inductive exn : Type :=
| ValueError
| TypeError
| IndexError
| UnboundLocalError
| ZeroDivisionError
| EmptyInputError
| UnknownElementTypeError
| UnsatisfiablePatternError
| DivisionGuardError.

(** How a call ends: it returns a value, it raises, or it leaves the
    process through [sys.exit status]. *)
Inductive outcome (A : Type) : Type :=
| Returned (a : A)
| Raised (e : exn)
| Exited (status : Z).

Arguments Returned {A} a.
Arguments Raised {A} e.
Arguments Exited {A} status.

Definition bind {A B} (m : outcome A) (k : A -> outcome B) : outcome B :=
  match m with
  | Returned a => k a
  | Raised e => Raised e
  | Exited s => Exited s
  end.

Definition returns {A} (m : outcome A) : Prop := exists a, m = Returned a.

(** A dynamically typed value, as far as output lines need it. *)
Inductive value : Type :=
| Str (s : string)
| Int (z : Z)
| Float (q : Q).

Definition is_str (v : value) : bool :=
  match v with Str _ => true | _ => false end.

(** [str(n)] for an [int]. *)
Definition str_of_int (n : Z) : string := NilZero.string_of_int (Z.to_int n).

(** Truth value of a [str] and of a [list]. *)
Definition truthy_str (s : string) : bool :=
  match s with EmptyString => false | _ => true end.

Definition truthy_list {A} (l : list A) : bool :=
  match l with [] => false | _ => true end.

Definition truthy_opt {A} (t : A -> bool) (o : option A) : bool :=
  match o with None => false | Some a => t a end.

(** [sep in s] and [s.split(sep)] for a one-character separator. *)
Fixpoint contains (sep : ascii) (s : string) : bool :=
  match s with
  | EmptyString => false
  | String c s' => Ascii.eqb c sep || contains sep s'
  end.

Fixpoint split (sep : ascii) (s : string) : list string :=
  match s with
  | EmptyString => [EmptyString]
  | String c s' =>
      if Ascii.eqb c sep then EmptyString :: split sep s'
      else match split sep s' with
           | [] => [String c EmptyString]
           | piece :: rest => String c piece :: rest
           end
  end.

(** [sep.join(pieces)]. *)
Fixpoint join (sep : string) (pieces : list string) : string :=
  match pieces with
  | [] => EmptyString
  | [p] => p
  | p :: rest => p ++ sep ++ join sep rest
  end.

(** Number of occurrences of a character, [s.count(c)]. *)
Fixpoint count (c : ascii) (s : string) : nat :=
  match s with
  | EmptyString => 0
  | String d s' => (if Ascii.eqb d c then 1 else 0) + count c s'
  end.

(** The one-character string ["\n"]. *)
Definition nl : string := String (ascii_of_nat 10) EmptyString.

(** [range(0, n)]: the indices 0, 1, ..., n-1; empty when [n <= 0]. *)
Definition range (n : Z) : list nat := seq 0 (Z.to_nat n).

(** [s.rstrip()] removes trailing white space. *)
Definition is_space (c : ascii) : bool :=
  let n := nat_of_ascii c in
  (n =? 32)%nat || ((9 <=? n)%nat && (n <=? 13)%nat).

Fixpoint rstrip (s : string) : string :=
  match s with
  | EmptyString => EmptyString
  | String c s' =>
      match rstrip s' with
      | EmptyString => if is_space c then EmptyString else String c EmptyString
      | t => String c t
      end
  end.

End Py.

Import Py.

Notation "x <- m ;; k" := (Py.bind m (fun x => k))
  (at level 61, m at next level, right associativity).

(** ** [get_filenames] *)

Definition get_filenames (filename_in : string) : outcome (string * string) :=
  match split "." filename_in with
  | [name; extension] =>
      let filename_out := name ++ "_out" ++ "." ++ extension in
      Returned (filename_in, filename_out)
  | _ => Raised ValueError
  end.

(** ** The [Text] object

    [writerator.py] imports [Text] from [texttools] and only calls its
    methods.  The functions of [writerator.py] are embedded over any
    implementation of these methods. *)

(** The random choices of a run: the [i]-th draw of the generator. *)
Definition randomness : Type := nat -> nat.

(** A ranking: (element, count) pairs. *)
Definition ranking : Type := list (string * Z).

(** A poem: its lines. *)
Definition poem : Type := list string.

(** Modelled from the spec: the signatures of the methods of
    [texttools.Text], which is not part of the given sources.  Counting
    yields an integer, the readability score is a single number (a float in
    the program, a rational here), rankings are sequences of (element,
    count) pairs and poems are sequences of lines.  Each method can fail. *)
Class TextAPI (Text : Type) : Type := {
  rank_by_total_count : Text -> string -> outcome ranking;
  rank_by_number_of_matches : Text -> list string -> string -> outcome ranking;
  count_occurences : Text -> string -> string -> outcome Z;
  calculate_Gunning_Fog_Index : Text -> outcome Q;
  generate_poems : Text -> list Z -> Z -> randomness -> outcome (list poem)
}.

(** ** Output construction *)

Definition get_last_index_for_output (ranked_elements : ranking)
    (number_to_display : Z) : Z :=
  if (Z.of_nat (List.length ranked_elements) <? number_to_display)%Z
  then Z.of_nat (List.length ranked_elements)
  else number_to_display.

(** One formatted line of a ranking. *)
Definition ranked_line (entry : string * Z) : string :=
  let (element, count) := entry in
  str_of_int count ++ ": " ++ element ++ nl.

(** The body of the [for i in range(0, last_index)] loop, threaded over the
    indices; [rank_list[i]] raises [IndexError] out of range. *)
Fixpoint ranked_loop (rank_list : ranking) (indices : list nat)
    (output_lines : list string) : outcome (list string) :=
  match indices with
  | [] => Returned output_lines
  | i :: indices' =>
      match nth_error rank_list i with
      | None => Raised IndexError
      | Some (element, count) =>
          if (count =? 0)%Z
          then ranked_loop rank_list indices' output_lines
          else ranked_loop rank_list indices'
                 (output_lines ++ [ranked_line (element, count)])%list
      end
  end.

Definition generate_ranked_list_output (rank_list : ranking)
    (number_to_show : Z) : outcome (list string) :=
  let last_index := get_last_index_for_output rank_list number_to_show in
  ranked_loop rank_list (range last_index) [].

Section Commands.

Context {Text : Type} `{TextAPI Text}.

Definition get_totalcount_output (text : Text) (element_type : string)
    (number_to_display : Z) : outcome (list string) :=
  ranked_elements <- rank_by_total_count text element_type ;;
  generate_ranked_list_output ranked_elements number_to_display.

Definition get_count_output (text : Text) (element_type element_to_count : string)
    : outcome (list value) :=
  n <- count_occurences text element_to_count element_type ;;
  Returned ([] ++ [Int n])%list.

Definition get_match_output (text : Text) (element_type elements_to_match : string)
    (number_to_display : Z) : outcome (list string) :=
  let match_seperator := "~"%char in
  let elements_to_match :=
    if contains match_seperator elements_to_match
    then split match_seperator elements_to_match
    else [elements_to_match] in
  ranked_elements <- rank_by_number_of_matches text elements_to_match element_type ;;
  generate_ranked_list_output ranked_elements number_to_display.

Definition get_Gunning_output (text : Text) : outcome (list value) :=
  score <- calculate_Gunning_Fog_Index text ;;
  Returned [Float score].

Definition get_readability_test_output (text : Text) (test : string)
    : outcome (option (list value)) :=
  if String.eqb test "g"
  then lines <- get_Gunning_output text ;; Returned (Some lines)
  else Returned None.

(** The two nested loops of [get_poem_output]. *)
Definition append_poem (output_lines : list string) (p : poem) : list string :=
  (fold_left (fun acc line => acc ++ [(line ++ nl)%string]) p output_lines
     ++ [nl])%list.

Definition get_poem_output (text : Text) (syllables_pattern : list Z)
    (number_to_generate : Z) (rnd : randomness) : outcome (list string) :=
  poems <- generate_poems text syllables_pattern number_to_generate rnd ;;
  Returned (fold_left append_poem poems []).

End Commands.

(** ** Logging and process exit

    [get_output] writes to the error log and may call [sys.exit]: its result
    is the text logged so far together with the way the call ended. *)

Definition logged (A : Type) : Type := (list string * outcome A)%type.

Definition lret {A} (a : A) : logged A := ([], Returned a).

Definition lift {A} (m : outcome A) : logged A := ([], m).

Definition lbind {A B} (m : logged A) (k : A -> logged B) : logged B :=
  match m with
  | (l, Returned a) => let (l', r) := k a in ((l ++ l')%list, r)
  | (l, Raised e) => (l, Raised e)
  | (l, Exited status) => (l, Exited status)
  end.

Definition logging_error (msg : string) : logged unit := ([msg], Returned tt).

Definition sys_exit {A} (status : Z) : logged A := ([], Exited status).

Notation "x <<- m ;; k" := (lbind m (fun x => k))
  (at level 61, m at next level, right associativity).

(** ** The helpers nested in [get_output] *)

(** Expands one letter element type code to full word. *)
Definition expand_type (code : string) : logged string :=
  if String.eqb code "c" then lret "characters"
  else if String.eqb code "w" then lret "words"
  else if String.eqb code "s" then lret "sentences"
  else
    _ <<- logging_error ("No such element type cannot expand: " ++ code) ;;
    sys_exit 0.

Definition get_repeat_syllable_pattern (number_of_syllables times_to_repeat : Z)
    : list Z :=
  fold_left (fun repeat_pattern _ => (repeat_pattern ++ [number_of_syllables])%list)
    (range times_to_repeat) [].

(** [None] is the value of a call that falls off the end of the function. *)
Definition get_syllable_pattern (name : string) : option (list Z) :=
  if String.eqb name "s" then Some (get_repeat_syllable_pattern 10 14)
  else if String.eqb name "h" then Some [7; 5; 7]%Z
  else None.

(** ** Parsed arguments and the environment of a run *)

(** The namespace built by the argument parser.  [None] is the value of an
    option that was not given. *)
Record args : Type := {
  file_in : string;
  debug : bool;
  output : bool;
  command : option string;
  type : string;
  show : Z;
  syllables : option (list Z);
  preset : option string;
  shortcut : option (list Z);
  count : option string;
  totalcount : bool;
  patterns : string;
  general : bool;
  test : option string;
  run : option string;
  list_batches : bool
}.

(** [settings.ini]: the sections in iteration order ([DEFAULT] first), each
    with its options in order. *)
Definition config : Type := list (string * list (string * string)).

Definition config_section (cfg : config) (name : string)
    : option (list (string * string)) :=
  option_map snd (find (fun sec => String.eqb (fst sec) name) cfg).

Definition get_batch_args_list (cfg : config) (batch_name : string) : list string :=
  match config_section cfg batch_name with
  | Some options => map snd options
  | None => []
  end.

(** What a run takes from outside the program: the name it was started
    under, the standard output of a child process for a command line, and
    the random draws. *)
Record env : Type := {
  module_name : string;
  popen_stdout : string -> list string;
  rnd : randomness
}.

Definition commands : list string := ["poem"; "count"; "match"; "info"; "batch"].

Definition command_is (a : args) (i : nat) : bool :=
  match command a, nth_error commands i with
  | Some c, Some c' => String.eqb c c'
  | _, _ => false
  end.

(** The syllable pattern that the poem command hands to [get_poem_output]:
    [Some] a list, or [None] when the preset helper fell off its end.  With
    none of the three options given the variable is unbound at its use. *)
Definition poem_syllables_pattern (a : args) : outcome (option (list Z)) :=
  if truthy_opt truthy_list (syllables a) then
    Returned (syllables a)
  else if truthy_opt truthy_str (preset a) then
    match preset a with
    | Some name => Returned (get_syllable_pattern name)
    | None => Raised UnboundLocalError
    end
  else if truthy_opt truthy_list (shortcut a) then
    match shortcut a with
    | Some sc =>
        match nth_error sc 0, nth_error sc 1 with
        | Some s0, Some s1 => Returned (Some (get_repeat_syllable_pattern s0 s1))
        | _, _ => Raised IndexError
        end
    | None => Raised UnboundLocalError
    end
  else Raised UnboundLocalError.

Section GetOutput.

Context {Text : Type} `{TextAPI Text}.

Definition strs (lines : list string) : option (list value) :=
  Some (map Str lines).

Definition batch_step (e : env) (a : args) (output_lines : list string)
    (batch_args : string) : list string :=
  let command := "python " ++ module_name e ++ " " ++ file_in a ++ " " ++ batch_args in
  let output_lines :=
    fold_left (fun acc line => acc ++ [rstrip line])%list
      (popen_stdout e ("echo " ++ command)) output_lines in
  let output_lines :=
    fold_left (fun acc line => acc ++ [rstrip line])%list
      (popen_stdout e command) output_lines in
  (output_lines ++ [" "])%list.

(** The result is [None] when the function ends without a [return]. *)
Definition get_output (text : Text) (a : args) (cfg : config) (e : env)
    : logged (option (list value)) :=
  if command_is a 1 then
    if truthy_opt truthy_str (count a) then
      element_type <<- expand_type (type a) ;;
      match count a with
      | Some element_to_count =>
          lines <<- lift (get_count_output text element_type element_to_count) ;;
          lret (Some lines)
      | None => lret None
      end
    else if totalcount a then
      element_type <<- expand_type (type a) ;;
      lines <<- lift (get_totalcount_output text element_type (show a)) ;;
      lret (strs lines)
    else lret None
  else if command_is a 2 then
    element_type <<- expand_type (type a) ;;
    lines <<- lift (get_match_output text element_type (patterns a) (show a)) ;;
    lret (strs lines)
  else if command_is a 0 then
    pattern <<- lift (poem_syllables_pattern a) ;;
    match pattern with
    | Some syllables_pattern =>
        lines <<- lift (get_poem_output text syllables_pattern (show a) (rnd e)) ;;
        lret (strs lines)
    | None => lift (Raised TypeError)
    end
  else if command_is a 3 then
    if general a then
      _ <<- logging_error "info -g not implemented" ;;
      sys_exit 0
    else
      match test a with
      | Some t =>
          if String.eqb t "g" then lift (get_readability_test_output text t)
          else lret None
      | None => lret None
      end
  else if command_is a 4 then
    if truthy_opt truthy_str (run a) then
      match run a with
      | Some name =>
          if existsb (fun sec => String.eqb (fst sec) name) cfg then
            lret (strs (fold_left (batch_step e a) (get_batch_args_list cfg name) []))
          else
            _ <<- logging_error ("No such batch grouping : " ++ name) ;;
            sys_exit 0
      | None => lret None
      end
    else if list_batches a then
      let ignore_list := ["DEFAULT"; "parser"] in
      lret (strs (filter
                    (fun g => negb (existsb (String.eqb g) ignore_list))
                    (map fst cfg)))
    else lret None
  else lret None.

End GetOutput.

(** ** Writing the output *)

(** [file.writelines(lines)] appends each line to the file and raises
    [TypeError] at the first line that is not a [str]. *)
Fixpoint writelines (lines : list value) (content : string) : string * outcome unit :=
  match lines with
  | [] => (content, Returned tt)
  | Str s :: lines' => writelines lines' (content ++ s)
  | _ :: _ => (content, Raised TypeError)
  end.

(** The file is opened for writing, hence emptied first; the result is the
    content of the file after the call and the way the call ended. *)
Definition output_to_file (filename : string) (output_lines : list value)
    : string * outcome unit :=
  writelines output_lines "".

(** ** The text engine

    [texttools] is not among the given sources.  The module below is a
    model of it that follows the specification, so that the claims about
    rankings, readability and poems can be stated on the whole path from a
    raw text to the output lines. *)

Module Texttools.

(** *** Tokenizer *)

Definition in_range (lo hi : nat) (c : ascii) : bool :=
  let n := nat_of_ascii c in ((lo <=? n) && (n <=? hi))%nat.

Definition is_upper (c : ascii) : bool := in_range 65 90 c.
Definition is_lower (c : ascii) : bool := in_range 97 122 c.
Definition is_digit (c : ascii) : bool := in_range 48 57 c.

(** Modelled from the spec: the word-constituent characters, which the
    spec leaves to the implementer; letters and digits here. *)
Definition is_word_char (c : ascii) : bool :=
  is_upper c || is_lower c || is_digit c.

Definition lower_char (c : ascii) : ascii :=
  if is_upper c then ascii_of_nat (nat_of_ascii c + 32) else c.

Fixpoint lower (s : string) : string :=
  match s with
  | EmptyString => EmptyString
  | String c s' => String (lower_char c) (lower s')
  end.

(** Modelled from the spec: [words] are the maximal runs of
    word-constituent characters, punctuation stripped.  [cur] is the run
    read so far. *)
Fixpoint words_from (cur : string) (s : string) : list string :=
  match s with
  | EmptyString => if truthy_str cur then [cur] else []
  | String c s' =>
      if is_word_char c then words_from (cur ++ String c EmptyString) s'
      else if truthy_str cur then cur :: words_from EmptyString s'
      else words_from EmptyString s'
  end.

Definition words_of (s : string) : list string := words_from EmptyString s.

(** Modelled from the spec: [characters] are every individual character,
    white space and punctuation included. *)
Fixpoint characters_of (s : string) : list string :=
  match s with
  | EmptyString => []
  | String c s' => String c EmptyString :: characters_of s'
  end.

Fixpoint lstrip (s : string) : string :=
  match s with
  | EmptyString => EmptyString
  | String c s' => if is_space c then lstrip s' else s
  end.

Definition strip (s : string) : string := lstrip (rstrip s).

Definition is_terminal (c : ascii) : bool :=
  Ascii.eqb c "." || Ascii.eqb c "!" || Ascii.eqb c "?".

Fixpoint fragments_from (cur : string) (s : string) : list string :=
  match s with
  | EmptyString => [cur]
  | String c s' =>
      if is_terminal c then cur :: fragments_from EmptyString s'
      else fragments_from (cur ++ String c EmptyString) s'
  end.

(** Modelled from the spec: [sentences] are the text split on sentence
    terminal punctuation, trimmed, empty fragments discarded. *)
Definition sentences_of (s : string) : list string :=
  filter truthy_str (map strip (fragments_from EmptyString s)).

(** Modelled from the spec: the [Text] object, an immutable wrapper over
    the raw content; its tokenizations are derived from the content. *)
Record Text : Type := { raw : string }.

(** Modelled from the spec: the tokens of a text for an element type
    name.  Words are compared case-insensitively when counted, hence
    folded to lower case.  A text without tokens of the type is an
    [EmptyInputError], an unknown type name an
    [UnknownElementTypeError]. *)
Definition tokens (text : Text) (element_type : string) : outcome (list string) :=
  toks <-
    (if String.eqb element_type "words" then
       Returned (map lower (words_of (raw text)))
     else if String.eqb element_type "characters" then
       Returned (characters_of (raw text))
     else if String.eqb element_type "sentences" then
       Returned (sentences_of (raw text))
     else Raised UnknownElementTypeError) ;;
  match toks with
  | [] => Raised EmptyInputError
  | _ => Returned toks
  end.

(** *** Frequency ranker *)

(** Adds one occurrence of [e] to a table that keeps its keys in the
    order of their first insertion. *)
Fixpoint bump (e : string) (weight : Z) (table : ranking) : ranking :=
  match table with
  | [] => [(e, weight)]
  | (k, c) :: table' =>
      if String.eqb k e then (k, (c + weight)%Z) :: table'
      else (k, c) :: bump e weight table'
  end.

(** Modelled from the spec: the count of every distinct element, the
    elements in the order of their first appearance in the tokenization. *)
Definition count_all (toks : list string) : ranking :=
  fold_left (fun table e => bump e 1%Z table) toks [].

(** Insertion of an entry into a ranking sorted by count descending, after
    the entries of larger count and before those of equal count. *)
Fixpoint insert_ranked (x : string * Z) (r : ranking) : ranking :=
  match r with
  | [] => [x]
  | y :: r' =>
      if (snd x <? snd y)%Z then y :: insert_ranked x r'
      else x :: y :: r'
  end.

(** Modelled from the spec: the ordering invariant of a ranking, a stable
    sort by count descending over the table in first-appearance order. *)
Definition sort_ranked (table : ranking) : ranking :=
  fold_right insert_ranked [] table.

(** Modelled from the spec: [rankByTotalCount] counts the occurrences of
    every distinct element of the type and sorts by count descending,
    ties in first-appearance order. *)
Definition rank_by_total_count (text : Text) (element_type : string)
    : outcome ranking :=
  toks <- tokens text element_type ;;
  Returned (sort_ranked (count_all toks)).

(** [pattern in element] for strings. *)
Fixpoint is_prefix (p s : string) : bool :=
  match p, s with
  | EmptyString, _ => true
  | String a p', String b s' => Ascii.eqb a b && is_prefix p' s'
  | String _ _, EmptyString => false
  end.

Fixpoint appears (p s : string) : bool :=
  is_prefix p s ||
  match s with
  | EmptyString => false
  | String _ s' => appears p s'
  end.

Definition matches (patterns : list string) (element : string) : Z :=
  Z.of_nat (List.length (filter (fun p => appears p element) patterns)).

(** Modelled from the spec: [rankByMatchCount] counts for each element
    instance how many of the patterns appear in it, aggregates by value
    and ranks by the total, with the same ordering rule. *)
Definition rank_by_number_of_matches (text : Text) (patterns : list string)
    (element_type : string) : outcome ranking :=
  toks <- tokens text element_type ;;
  Returned (sort_ranked
              (fold_left (fun table e => bump e (matches patterns e) table) toks [])).

(** Modelled from the spec: [countOccurrences] is the number of tokens of
    the type that equal the value exactly. *)
Definition count_occurences (text : Text) (element element_type : string)
    : outcome Z :=
  toks <- tokens text element_type ;;
  Returned (Z.of_nat (List.length (filter (String.eqb element) toks))).

(** Position of the first occurrence of [e] in [toks] (the length of
    [toks] when there is none). *)
Fixpoint first_index (e : string) (toks : list string) : nat :=
  match toks with
  | [] => 0
  | t :: toks' => if String.eqb t e then 0 else S (first_index e toks')
  end.

(** *** Syllable estimator *)

Definition is_vowel (c : ascii) : bool :=
  existsb (Ascii.eqb (lower_char c)) (list_ascii_of_string "aeiouy").

(** Number of maximal runs of vowels; [in_run] tells whether the previous
    character was a vowel. *)
Fixpoint vowel_runs (in_run : bool) (s : string) : nat :=
  match s with
  | EmptyString => 0
  | String c s' =>
      if is_vowel c then (if in_run then 0 else 1) + vowel_runs true s'
      else vowel_runs false s'
  end.

(** A final "e" after a consonant is silent, except in an "le" ending
    that follows a consonant. *)
Definition silent_trailing_e (word : string) : bool :=
  match rev (list_ascii_of_string (lower word)) with
  | e :: c :: before =>
      Ascii.eqb e "e" && negb (is_vowel c) &&
      negb (Ascii.eqb c "l" &&
            match before with
            | d :: _ => negb (is_vowel d)
            | [] => false
            end)
  | _ => false
  end.

(** Modelled from the spec: [estimateSyllables] counts the maximal runs of
    vowels (a, e, i, o, u, y, case-insensitive), does not count a silent
    trailing "e", counts an "le" ending after a consonant, and clamps the
    result to at least 1. *)
Definition estimateSyllables (word : string) : nat :=
  Nat.max 1 (vowel_runs false word - (if silent_trailing_e word then 1 else 0)).

Definition syllables_of (fragments : list string) : nat :=
  list_sum (map estimateSyllables fragments).

(** The estimated syllable count of a line: that of its words. *)
Definition line_syllables (line : string) : nat := syllables_of (words_of line).

(** *** Readability scorer *)

(** [a / b] raises [ZeroDivisionError] when [b] is zero. *)
Definition py_div (a b : Q) : outcome Q :=
  if Qeq_bool b 0 then Raised ZeroDivisionError else Returned (a / b)%Q.

Definition count_of {A} (l : list A) : Q := inject_Z (Z.of_nat (List.length l)).

Definition complex_words (ws : list string) : list string :=
  filter (fun w => (3 <=? estimateSyllables w)%nat) ws.

(** Modelled from the spec: the Gunning-Fog index
    [0.4 * ((words/sentences) + 100 * (complexWords/words))], a complex
    word having 3 or more estimated syllables; it fails with
    [DivisionGuardError] when the sentence count or the word count is
    zero. *)
Definition calculate_Gunning_Fog_Index (text : Text) : outcome Q :=
  let ws := words_of (raw text) in
  let ss := sentences_of (raw text) in
  match ss, ws with
  | [], _ => Raised DivisionGuardError
  | _, [] => Raised DivisionGuardError
  | _, _ =>
      per_sentence <- py_div (count_of ws) (count_of ss) ;;
      complex_share <- py_div (count_of (complex_words ws)) (count_of ws) ;;
      Returned ((4 # 10) * (per_sentence + 100 * complex_share))%Q
  end.

(** *** Poem generator *)

(** Modelled from the spec: a syllable count is reachable when some
    combination of fragments of the vocabulary sums to it exactly. *)
Definition reachable (vocab : list string) (target : nat) : Prop :=
  exists fragments,
    Forall (fun w => In w vocab) fragments /\ syllables_of fragments = target.

(** Decides reachability; every fragment has at least one syllable, so
    [fuel = target] steps are enough. *)
Fixpoint reach (vocab : list string) (fuel target : nat) : bool :=
  match target with
  | 0 => true
  | S _ =>
      match fuel with
      | 0 => false
      | S fuel' =>
          existsb (fun w => (estimateSyllables w <=? target)%nat &&
                            reach vocab fuel' (target - estimateSyllables w))
                  vocab
      end
  end.

(** The fragments that can come next: they fit the remaining count and
    leave a count that can still be reached. *)
Definition candidates (vocab : list string) (remaining : nat) : list string :=
  filter (fun w => (estimateSyllables w <=? remaining)%nat &&
                   reach vocab (remaining - estimateSyllables w)
                               (remaining - estimateSyllables w))
         vocab.

(** Modelled from the spec: a line is assembled by concatenating sampled
    fragments until the running total reaches the target without
    exceeding it; the choice among the valid candidates is random (draw
    number [pos] of the run).  [None] when no candidate is left. *)
Fixpoint gen_line (vocab : list string) (fuel remaining : nat)
    (rnd : randomness) (pos : nat) : option (list string * nat) :=
  match remaining with
  | 0 => Some ([], pos)
  | S _ =>
      match fuel with
      | 0 => None
      | S fuel' =>
          let cands := candidates vocab remaining in
          match nth_error cands (rnd pos mod List.length cands) with
          | None => None
          | Some w =>
              match gen_line vocab fuel' (remaining - estimateSyllables w)
                      rnd (S pos) with
              | Some (ws, pos') => Some (w :: ws, pos')
              | None => None
              end
          end
      end
  end.

(** The lines of one poem, one per pattern entry; a target that cannot
    be met is an [UnsatisfiablePatternError]. *)
Fixpoint gen_lines (vocab : list string) (pattern : list Z)
    (rnd : randomness) (pos : nat) : outcome (poem * nat) :=
  match pattern with
  | [] => Returned ([], pos)
  | target :: pattern' =>
      if (target <? 0)%Z then Raised UnsatisfiablePatternError
      else
        match gen_line vocab (Z.to_nat target) (Z.to_nat target) rnd pos with
        | None => Raised UnsatisfiablePatternError
        | Some (ws, pos') =>
            rest <- gen_lines vocab pattern' rnd pos' ;;
            Returned (join " " ws :: fst rest, snd rest)
        end
  end.

Fixpoint gen_poems (vocab : list string) (pattern : list Z) (n : nat)
    (rnd : randomness) (pos : nat) : outcome (list poem) :=
  match n with
  | 0 => Returned []
  | S n' =>
      p <- gen_lines vocab pattern rnd pos ;;
      ps <- gen_poems vocab pattern n' rnd (snd p) ;;
      Returned (fst p :: ps)
  end.

(** Modelled from the spec: [generatePoems] repeats the per-line process
    [count] times; the fragments are the words of the source text in
    their original case. *)
Definition generate_poems (text : Text) (pattern : list Z) (n : Z)
    (rnd : randomness) : outcome (list poem) :=
  gen_poems (words_of (raw text)) pattern (Z.to_nat n) rnd 0.

(** Modelled from the spec: a pattern is satisfiable by the source
    vocabulary when each of its entries is reachable. *)
Definition satisfiable (text : Text) (pattern : list Z) : Prop :=
  Forall (fun target => (0 <= target)%Z /\
                        reachable (words_of (raw text)) (Z.to_nat target))
         pattern.

End Texttools.

#[export] Instance Texttools_API : TextAPI Texttools.Text := {
  rank_by_total_count := Texttools.rank_by_total_count;
  rank_by_number_of_matches := Texttools.rank_by_number_of_matches;
  count_occurences := Texttools.count_occurences;
  calculate_Gunning_Fog_Index := Texttools.calculate_Gunning_Fog_Index;
  generate_poems := Texttools.generate_poems
}.

(** ** Statements of the specification, in its own words *)

(** The patterns of the match command as the specification words them: the
    pieces between the separators when the separator occurs, the whole
    string alone otherwise. *)
Definition patterns_of_argument (argument : string) : list string :=
  if contains "~" argument then split "~" argument else [argument].

(** The valid element type codes. *)
Definition valid_type_code (code : string) : bool :=
  String.eqb code "w" || String.eqb code "c" || String.eqb code "s".

(** Arguments of a poem command. *)
Definition poem_args (l : option (list Z)) (p : option string)
    (c : option (list Z)) (n : Z) : args :=
  {| file_in := "poems.txt"; debug := false; output := false;
     command := Some "poem"; type := "w"; show := n;
     syllables := l; preset := p; shortcut := c;
     count := None; totalcount := false; patterns := "";
     general := false; test := None; run := None; list_batches := false |}.

(** Arguments of a count or match command. *)
Definition element_args (cmd code : string) (element : option string)
    (total : bool) (pats : string) (n : Z) : args :=
  {| file_in := "text.txt"; debug := false; output := false;
     command := Some cmd; type := code; show := n;
     syllables := None; preset := None; shortcut := None;
     count := element; totalcount := total; patterns := pats;
     general := false; test := None; run := None; list_batches := false |}.

Definition positive_pattern (pattern : list Z) : Prop :=
  Forall (fun n => (0 < n)%Z) pattern.

(** An entry of a ranking is shown when its count is not zero. *)
Definition shown (entry : string * Z) : bool := negb (snd entry =? 0)%Z.

(** The sample text of the specification. *)
Definition sample_text : Texttools.Text :=
  {| Texttools.raw := "The cat sat. The cat ran fast." |}.

Definition sample_env : env :=
  {| module_name := "writerator.py";
     popen_stdout := fun _ => [];
     rnd := fun i => i |}.

(** [before l x y]: an occurrence of [x] in [l] comes before an occurrence
    of [y]. *)
Inductive before {A : Type} : list A -> A -> A -> Prop :=
| before_head (x : A) (l : list A) (y : A) : In y l -> before (x :: l) x y
| before_tail (z : A) (l : list A) (x y : A) : before l x y -> before (z :: l) x y.

(** Rankings are ordered by count, larger first. *)
Definition count_ge (p q : string * Z) : Prop := (snd q <= snd p)%Z.

(** The formatted poems as the specification words them: per poem, in
    order, one string per line (the line and a newline), then one blank
    separator line. *)
Definition formatted_poems (poems : list poem) : list string :=
  flat_map (fun p => (map (fun line => (line ++ nl)%string) p ++ [nl])%list) poems.

(** A line meets its target when its estimated syllable count is the
    target exactly. *)
Definition meets (line : string) (target : Z) : Prop :=
  Z.of_nat (Texttools.line_syllables line) = target.

(** A word as the tokenizer yields it: not empty, word characters only. *)
Fixpoint all_word_chars (s : string) : bool :=
  match s with
  | EmptyString => true
  | String c s' => Texttools.is_word_char c && all_word_chars s'
  end.

Definition word_ok (w : string) : bool := truthy_str w && all_word_chars w.

(** ** Logging level, console output and [main] *)

Inductive level : Type := DEBUG | ERROR.

Definition set_logging_level (bool_option : bool) : level :=
  if bool_option then DEBUG else ERROR.

(** [logging.debug(msg)] reaches the error stream only at level DEBUG;
    [logging.error] reaches it at both levels. *)
Definition logging_debug (lvl : level) (msg : string) : list string :=
  match lvl with
  | DEBUG => [msg]
  | ERROR => []
  end.

(** What a run of [main] leaves behind: the messages on the error stream,
    the text printed, the file written (name and content) if one was
    opened, and the way the run ended. *)
Record execution : Type := {
  stderr : list string;
  stdout : string;
  written : option (string * string);
  ending : outcome unit
}.

Definition stopped (log : list string) (r : outcome unit) : execution :=
  {| stderr := log; stdout := ""; written := None; ending := r |}.

Section Main.

Context {Text : Type} `{TextAPI Text}.

(** Taken from outside [writerator.py]: [str(args)] of the parsed
    namespace, the constructor [Text(filename)] of [texttools], and [str]
    of a float. *)
Variable str_args : args -> string.
Variable open_text : string -> outcome Text.
Variable str_float : Q -> string.

(** [str(line)], as [print] applies it. *)
Definition str_value (v : value) : string :=
  match v with
  | Str s => s
  | Int n => str_of_int n
  | Float q => str_float q
  end.

(** [print(line)] for each line: the line, then a newline. *)
Definition output_to_console (output_lines : list value) : string :=
  fold_left (fun printed line => printed ++ str_value line ++ nl) output_lines "".

(** [main] after the arguments were parsed.  Iterating over [None], the
    result of a [get_output] that ended without [return], raises
    [TypeError]; with the output option the file has been opened, and so
    emptied, by then. *)
Definition main (a : args) (cfg : config) (e : env) : execution :=
  let lvl := set_logging_level (debug a) in
  let log := logging_debug lvl (str_args a) in
  match get_filenames (file_in a) with
  | Returned (filename_in, filename_out) =>
      match open_text filename_in with
      | Returned text =>
          match get_output text a cfg e with
          | (log', Returned output_lines) =>
              if output a then
                match output_lines with
                | Some lines =>
                    let (content, r) := output_to_file filename_out lines in
                    {| stderr := (log ++ log')%list; stdout := "";
                       written := Some (filename_out, content); ending := r |}
                | None =>
                    {| stderr := (log ++ log')%list; stdout := "";
                       written := Some (filename_out, ""); ending := Raised TypeError |}
                end
              else
                match output_lines with
                | Some lines =>
                    {| stderr := (log ++ log')%list;
                       stdout := output_to_console lines;
                       written := None; ending := Returned tt |}
                | None => stopped (log ++ log')%list (Raised TypeError)
                end
          | (log', Raised ex) => stopped (log ++ log')%list (Raised ex)
          | (log', Exited status) => stopped (log ++ log')%list (Exited status)
          end
      | Raised ex => stopped log (Raised ex)
      | Exited status => stopped log (Exited status)
      end
  | Raised ex => stopped log (Raised ex)
  | Exited status => stopped log (Exited status)
  end.

End Main.

(** The argument combinations for which [get_output] reaches its end
    without a [return]. *)
Definition no_result_args (a : args) : bool :=
  if command_is a 1 then
    negb (truthy_opt truthy_str (count a)) && negb (totalcount a)
  else if command_is a 2 then false
  else if command_is a 0 then false
  else if command_is a 3 then
    negb (general a) &&
    negb (match test a with Some t => String.eqb t "g" | None => false end)
  else if command_is a 4 then
    negb (truthy_opt truthy_str (run a)) && negb (list_batches a)
  else true.

(** Reading the output of the poem command back: a line loses its final
    newline, a blank separator line closes a poem. *)
Fixpoint chop (s : string) : string :=
  match s with
  | EmptyString => EmptyString
  | String c EmptyString => EmptyString
  | String c s' => String c (chop s')
  end.

Fixpoint unformat_from (current : poem) (output_lines : list string) : list poem :=
  match output_lines with
  | [] => []
  | line :: output_lines' =>
      if String.eqb line nl then current :: unformat_from [] output_lines'
      else unformat_from (current ++ [chop line])%list output_lines'
  end.

Definition unformat (output_lines : list string) : list poem :=
  unformat_from [] output_lines.

(** Arguments without a command. *)
Definition bare_args (name : string) (to_file : bool) : args :=
  {| file_in := name; debug := false; output := to_file;
     command := None; type := "w"; show := 10%Z;
     syllables := None; preset := None; shortcut := None;
     count := None; totalcount := false; patterns := "";
     general := false; test := None; run := None; list_batches := false |}.

(** The same arguments with the output option set. *)
Definition to_file (a : args) : args :=
  {| file_in := file_in a; debug := debug a; output := true;
     command := command a; type := type a; show := show a;
     syllables := syllables a; preset := preset a; shortcut := shortcut a;
     count := count a; totalcount := totalcount a; patterns := patterns a;
     general := general a; test := test a; run := run a;
     list_batches := list_batches a |}.




(** * Properties *)

(** ** Strings *)

Section StringFacts.

Variable sep : ascii.

Lemma split_not_nil (s : string) : split sep s <> [].
Proof.
  induction s as [|c s IH]; simpl; [discriminate|].
  destruct (Ascii.eqb c sep); [discriminate|].
  destruct (split sep s); discriminate.
Qed.

Lemma length_split (s : string) :
  List.length (split sep s) = S (Py.count sep s).
Proof.
  induction s as [|c s IH]; simpl; [reflexivity|].
  destruct (Ascii.eqb c sep); simpl; [now rewrite IH|].
  destruct (split sep s) as [|p r]; simpl in *; [discriminate|exact IH].
Qed.

Lemma join_split (s : string) :
  join (String sep EmptyString) (split sep s) = s.
Proof.
  induction s as [|c s IH]; simpl; [reflexivity|].
  destruct (Ascii.eqb_spec c sep) as [->|Hne].
  - pose proof (split_not_nil s) as Hnn.
    destruct (split sep s) as [|p r]; [contradiction|].
    simpl in *. now rewrite IH.
  - destruct (split sep s) as [|p r] eqn:E; [now destruct (split_not_nil s)|].
    destruct r as [|q r]; simpl in *; now rewrite <- IH.
Qed.

Lemma split_pieces_clean (s : string) :
  Forall (fun piece => contains sep piece = false) (split sep s).
Proof.
  induction s as [|c s IH]; simpl.
  - constructor; [reflexivity|constructor].
  - destruct (Ascii.eqb c sep) eqn:E.
    + constructor; [reflexivity|exact IH].
    + destruct (split sep s) as [|p r]; [repeat constructor; simpl; now rewrite E|].
      inversion IH; subst. constructor; [simpl; now rewrite E|assumption].
Qed.

Lemma contains_count (s : string) :
  contains sep s = false <-> Py.count sep s = 0.
Proof.
  induction s as [|c s IH]; simpl; [tauto|].
  destruct (Ascii.eqb c sep); simpl; [split; discriminate|exact IH].
Qed.

Lemma split_without_sep (s : string) :
  contains sep s = false -> split sep s = [s].
Proof.
  induction s as [|c s IH]; simpl; [reflexivity|].
  destruct (Ascii.eqb c sep); simpl; [discriminate|].
  intros Hc. now rewrite (IH Hc).
Qed.

End StringFacts.

(** ** File names *)

(** C10.  A file name with exactly one dot is split at the dot: the output
    name is the part before the dot, then [_out], then the dot and the
    extension, and the input name comes back unchanged.  With any other
    number of dots the destructuring of the split raises. *)
Theorem get_filenames_dots (filename_in : string) :
  (Py.count "." filename_in = 1 ->
   exists name extension,
     filename_in = name ++ "." ++ extension /\
     contains "." name = false /\ contains "." extension = false /\
     get_filenames filename_in
       = Returned (filename_in, name ++ "_out" ++ "." ++ extension)) /\
  (Py.count "." filename_in <> 1 ->
   get_filenames filename_in = Raised ValueError).
Proof.
  pose proof (length_split "." filename_in) as Hlen.
  pose proof (join_split "." filename_in) as Hjoin.
  pose proof (split_pieces_clean "." filename_in) as Hclean.
  unfold get_filenames.
  destruct (split "." filename_in) as [|name [|extension [|x r]]];
    simpl in Hlen; split; intros Hc; try lia; try reflexivity.
  exists name, extension.
  apply Forall_cons_iff in Hclean as [Hn Hrest].
  apply Forall_cons_iff in Hrest as [He _].
  simpl in Hjoin. simpl. rewrite Hjoin. repeat split; assumption.
Qed.

Lemma get_filenames_dots_witness :
  (exists name extension,
     "notes.txt" = name ++ "." ++ extension /\
     contains "." name = false /\ contains "." extension = false /\
     get_filenames "notes.txt"
       = Returned ("notes.txt", name ++ "_out" ++ "." ++ extension)) /\
  get_filenames "archive.tar.gz" = Raised ValueError /\
  get_filenames "README" = Raised ValueError.
Proof.
  split; [|split].
  - apply (proj1 (get_filenames_dots "notes.txt")). reflexivity.
  - apply (proj2 (get_filenames_dots "archive.tar.gz")). simpl. lia.
  - apply (proj2 (get_filenames_dots "README")). simpl. lia.
Defined.

(** ** Element type codes *)

Lemma valid_type_code_cases (code : string) :
  valid_type_code code = false ->
  String.eqb code "c" = false /\ String.eqb code "w" = false /\
  String.eqb code "s" = false.
Proof.
  unfold valid_type_code. intros Hv.
  apply orb_false_iff in Hv as [Hv Hs].
  apply orb_false_iff in Hv as [Hw Hc]. auto.
Qed.

Lemma expand_type_invalid (code : string) :
  valid_type_code code = false ->
  expand_type code
    = (["No such element type cannot expand: " ++ code], Exited 0%Z).
Proof.
  intros Hv. apply valid_type_code_cases in Hv as (Hc & Hw & Hs).
  unfold expand_type. now rewrite Hc, Hw, Hs.
Qed.

(** C3, as the program has it.  The codes w, c and s resolve to words,
    characters and sentences.  Any other code is logged as an error and the
    process is left through [sys.exit(0)]: no failure value comes back to
    the caller. *)
Theorem expand_type_resolves_or_exits (code : string) :
  (code = "w" -> expand_type code = ([], Returned "words")) /\
  (code = "c" -> expand_type code = ([], Returned "characters")) /\
  (code = "s" -> expand_type code = ([], Returned "sentences")) /\
  (valid_type_code code = false ->
   expand_type code
     = (["No such element type cannot expand: " ++ code], Exited 0%Z)).
Proof.
  repeat split; try (intros ->; reflexivity).
  apply expand_type_invalid.
Qed.

Lemma expand_type_resolves_or_exits_witness :
  expand_type "w" = ([], Returned "words") /\
  expand_type "c" = ([], Returned "characters") /\
  expand_type "s" = ([], Returned "sentences") /\
  expand_type "x" = (["No such element type cannot expand: x"], Exited 0%Z).
Proof.
  split; [|split; [|split]].
  - apply (proj1 (expand_type_resolves_or_exits "w")). reflexivity.
  - apply (proj1 (proj2 (expand_type_resolves_or_exits "c"))). reflexivity.
  - apply (proj1 (proj2 (proj2 (expand_type_resolves_or_exits "s")))). reflexivity.
  - apply (proj2 (proj2 (proj2 (expand_type_resolves_or_exits "x")))). reflexivity.
Defined.

(** C3, counterexample to the claim as stated: for the invalid code x the
    call neither returns nor raises [UnknownElementTypeError]; it exits. *)
Lemma expand_type_invalid_code_exits :
  valid_type_code "x" = false /\
  snd (expand_type "x") = Exited 0%Z /\
  snd (expand_type "x") <> Raised UnknownElementTypeError /\
  ~ returns (snd (expand_type "x")).
Proof.
  repeat split; try discriminate.
  intros [v Hv]. discriminate Hv.
Qed.

Section ExitPropagates.

Context {Text : Type} `{TextAPI Text}.

(** The exit of [expand_type] ends [get_output] before the text is
    consulted, for each command that takes an element type. *)
Lemma get_output_invalid_type (text : Text) (a : args) (cfg : config) (e : env) :
  valid_type_code (type a) = false ->
  command a = Some "match" \/
  (command a = Some "count" /\
   (truthy_opt truthy_str (count a) = true \/ totalcount a = true)) ->
  get_output text a cfg e
    = (["No such element type cannot expand: " ++ type a], Exited 0%Z).
Proof.
  intros Hv Hcmd.
  pose proof (expand_type_invalid (type a) Hv) as Hx.
  unfold get_output, command_is.
  destruct Hcmd as [-> | [-> Hopt]]; simpl.
  - now rewrite Hx.
  - destruct (truthy_opt truthy_str (count a)); [now rewrite Hx|].
    destruct Hopt as [Ht | ->]; [discriminate|now rewrite Hx].
Qed.

End ExitPropagates.

(** ** Syllable patterns *)

Lemma fold_left_append_constant {A B} (x : A) (l : list B) (acc : list A) :
  fold_left (fun r _ => (r ++ [x])%list) l acc = (acc ++ repeat x (List.length l))%list.
Proof.
  revert acc. induction l as [|b l IH]; intros acc; simpl.
  - now rewrite List.app_nil_r.
  - rewrite IH, <- List.app_assoc. reflexivity.
Qed.

Lemma length_range (n : Z) : List.length (range n) = Z.to_nat n.
Proof. unfold range. apply length_seq. Qed.

Lemma get_repeat_syllable_pattern_repeat (s k : Z) :
  get_repeat_syllable_pattern s k = repeat s (Z.to_nat k).
Proof.
  unfold get_repeat_syllable_pattern.
  now rewrite fold_left_append_constant, length_range.
Qed.

(** C8.  The fixed-repeat construction yields [k] entries, each equal to
    [s] (no entry at all when [k] is negative, as the loop body never
    runs); the preset s is the pattern of fourteen 10s and the preset h the
    three-entry pattern 7, 5, 7.  The poem command hands these lists to the
    generator as they are. *)
Theorem syllable_patterns_resolved (s k : Z) :
  List.length (get_repeat_syllable_pattern s k) = Z.to_nat k /\
  ((0 <= k)%Z -> Z.of_nat (List.length (get_repeat_syllable_pattern s k)) = k) /\
  Forall (fun entry => entry = s) (get_repeat_syllable_pattern s k) /\
  get_syllable_pattern "s"
    = Some [10; 10; 10; 10; 10; 10; 10; 10; 10; 10; 10; 10; 10; 10]%Z /\
  get_syllable_pattern "h" = Some [7; 5; 7]%Z /\
  (forall name n,
     poem_syllables_pattern (poem_args None (Some (String name "")) None n)
       = Returned (get_syllable_pattern (String name ""))) /\
  (forall n,
     poem_syllables_pattern (poem_args None None (Some [s; k]) n)
       = Returned (Some (get_repeat_syllable_pattern s k))).
Proof.
  assert (Hlen : List.length (get_repeat_syllable_pattern s k) = Z.to_nat k)
    by now rewrite get_repeat_syllable_pattern_repeat, repeat_length.
  split; [exact Hlen|].
  split; [intros Hk; rewrite Hlen; apply Z2Nat.id, Hk|].
  split.
  { rewrite get_repeat_syllable_pattern_repeat.
    apply Forall_forall. intros x Hx. now apply repeat_spec in Hx. }
  repeat split; intros; reflexivity.
Qed.

Lemma syllable_patterns_resolved_witness :
  Z.of_nat (List.length (get_repeat_syllable_pattern 8 4)) = 4%Z /\
  get_repeat_syllable_pattern 8 4 = [8; 8; 8; 8]%Z.
Proof.
  split; [|reflexivity].
  apply (proj1 (proj2 (syllable_patterns_resolved 8 4))). lia.
Defined.

Lemma get_syllable_pattern_positive (name : string) (pattern : list Z) :
  get_syllable_pattern name = Some pattern -> positive_pattern pattern.
Proof.
  unfold get_syllable_pattern.
  destruct (String.eqb name "s").
  - intros [= <-]. rewrite get_repeat_syllable_pattern_repeat.
    apply Forall_forall. intros x Hx. apply repeat_spec in Hx. subst. reflexivity.
  - destruct (String.eqb name "h"); [|discriminate].
    intros [= <-]. repeat constructor.
Qed.

(** Where the pattern of a poem command comes from. *)
Lemma poem_syllables_pattern_cases (a : args) (pattern : list Z) :
  poem_syllables_pattern a = Returned (Some pattern) ->
  syllables a = Some pattern \/
  (exists name, preset a = Some name /\ get_syllable_pattern name = Some pattern) \/
  (exists s k rest, shortcut a = Some (s :: k :: rest) /\
                    pattern = get_repeat_syllable_pattern s k).
Proof.
  unfold poem_syllables_pattern.
  destruct (truthy_opt truthy_list (syllables a)).
  { intros [= E]. now left. }
  destruct (truthy_opt truthy_str (preset a)).
  { destruct (preset a) as [name|]; [|discriminate].
    intros [= E]. right; left. now exists name. }
  destruct (truthy_opt truthy_list (shortcut a)); [|discriminate].
  destruct (shortcut a) as [[|s [|k rest]]|]; try discriminate.
  simpl. intros [= E]. right; right. now exists s, k, rest.
Qed.

(** C7, as the program has it.  The pattern handed to the generator is the
    explicit list as typed, the pattern of the preset, or the repeat of the
    shortcut.  The preset patterns are positive; the numbers typed on the
    command line are not checked, so the pattern is positive when they
    are. *)
Theorem poem_pattern_positive_when_typed_positive (a : args) (pattern : list Z) :
  poem_syllables_pattern a = Returned (Some pattern) ->
  (forall l, syllables a = Some l -> positive_pattern l) ->
  (forall s rest, shortcut a = Some (s :: rest) -> (0 < s)%Z) ->
  positive_pattern pattern.
Proof.
  intros Hp Hl Hs.
  destruct (poem_syllables_pattern_cases a pattern Hp)
    as [E | [(name & _ & E) | (s & k & rest & E & ->)]].
  - now apply Hl.
  - now apply get_syllable_pattern_positive with name.
  - rewrite get_repeat_syllable_pattern_repeat.
    apply Forall_forall. intros x Hx. apply repeat_spec in Hx. subst.
    now apply Hs with (k :: rest).
Qed.

Lemma poem_pattern_positive_when_typed_positive_witness :
  positive_pattern [5; 7; 5]%Z /\ positive_pattern [7; 5; 7]%Z /\
  positive_pattern [4; 4; 4]%Z.
Proof.
  split; [|split].
  - apply (poem_pattern_positive_when_typed_positive
             (poem_args (Some [5; 7; 5]%Z) None None 1)); [reflexivity| |].
    + intros l [= <-]. repeat constructor.
    + intros s rest [=].
  - apply (poem_pattern_positive_when_typed_positive
             (poem_args None (Some "h") None 1)); [reflexivity| |].
    + intros l [=].
    + intros s rest [=].
  - apply (poem_pattern_positive_when_typed_positive
             (poem_args None None (Some [4; 3]%Z) 1)); [reflexivity| |].
    + intros l [=].
    + intros s rest [= <- <-]. reflexivity.
Defined.

Section PoemPatternPassed.

Context {Text : Type} `{TextAPI Text}.

(** The poem command calls the generator with the pattern computed by
    [poem_syllables_pattern] and the number to show. *)
Lemma get_output_poem (text : Text) (a : args) (cfg : config) (e : env)
    (pattern : list Z) :
  command a = Some "poem" ->
  poem_syllables_pattern a = Returned (Some pattern) ->
  get_output text a cfg e
    = (lines <<- lift (get_poem_output text pattern (show a) (rnd e)) ;;
       lret (strs lines)).
Proof.
  intros Hc Hp. unfold get_output, command_is. rewrite Hc. simpl.
  rewrite Hp. simpl.
  destruct (get_poem_output text pattern (show a) (rnd e)); reflexivity.
Qed.

End PoemPatternPassed.

(** C7, counterexample to the claim as stated: the explicit list 0 and the
    shortcut of three lines of -2 syllables are handed to the generator as
    they are, and are not positive. *)
Lemma nonpositive_pattern_reaches_generator :
  poem_syllables_pattern (poem_args (Some [0]%Z) None None 1)
    = Returned (Some [0]%Z) /\
  ~ positive_pattern [0]%Z /\
  poem_syllables_pattern (poem_args None None (Some [-2; 3]%Z) 1)
    = Returned (Some [-2; -2; -2]%Z) /\
  ~ positive_pattern [-2; -2; -2]%Z.
Proof.
  repeat split.
  - intros Hp. apply Forall_inv in Hp. discriminate Hp.
  - intros Hp. apply Forall_inv in Hp. discriminate Hp.
Qed.

(** ** The patterns of the match command *)

Section MatchPatterns.

Context {Text : Type} `{TextAPI Text}.

(** C9.  [rank_by_number_of_matches] receives the pieces of the argument
    between the separators when the separator occurs in it and the
    argument alone otherwise, with the element type unchanged; joining
    the pieces with the separator gives the argument back, and no piece
    contains the separator. *)
Theorem get_match_output_patterns (text : Text) (element_type argument : string)
    (number_to_display : Z) :
  get_match_output text element_type argument number_to_display
    = (ranked <- rank_by_number_of_matches text (patterns_of_argument argument)
                   element_type ;;
       generate_ranked_list_output ranked number_to_display) /\
  (contains "~" argument = true ->
   patterns_of_argument argument = split "~" argument) /\
  (contains "~" argument = false -> patterns_of_argument argument = [argument]) /\
  patterns_of_argument argument = split "~" argument /\
  join "~" (patterns_of_argument argument) = argument /\
  Forall (fun piece => contains "~" piece = false) (patterns_of_argument argument).
Proof.
  unfold get_match_output, patterns_of_argument.
  split; [reflexivity|].
  destruct (contains "~" argument) eqn:E.
  - repeat split; try discriminate.
    + apply join_split.
    + apply split_pieces_clean.
  - repeat split; try discriminate.
    + symmetry. now apply split_without_sep.
    + constructor; [exact E|constructor].
Qed.

End MatchPatterns.

Lemma get_match_output_patterns_witness :
  patterns_of_argument "a~t" = ["a"; "t"] /\
  patterns_of_argument "cat" = ["cat"] /\
  get_match_output sample_text "words" "a~t" 2
    = Returned ["4: cat" ++ nl; "2: the" ++ nl].
Proof.
  split; [|split].
  - apply (proj1 (proj2 (get_match_output_patterns sample_text "words" "a~t" 2))).
    reflexivity.
  - apply (proj1 (proj2 (proj2
             (get_match_output_patterns sample_text "words" "cat" 2)))).
    reflexivity.
  - rewrite (proj1 (get_match_output_patterns sample_text "words" "a~t" 2)).
    reflexivity.
Defined.

(** ** The type of the output lines *)

Section LineTypes.

Context {Text : Type} `{TextAPI Text}.

(** The count command puts the integer itself in its output list and the
    readability command the score itself; neither is converted to a
    string, and writing such a list to the output file raises. *)
Lemma count_and_readability_lines (text : Text) (element_type element : string)
    (filename : string) :
  get_count_output text element_type element
    = (n <- count_occurences text element element_type ;; Returned [Int n]) /\
  get_Gunning_output text
    = (score <- calculate_Gunning_Fog_Index text ;; Returned [Float score]) /\
  (forall n, forallb is_str [Int n] = false /\
             output_to_file filename [Int n] = ("", Raised TypeError)) /\
  (forall q, forallb is_str [Float q] = false /\
             output_to_file filename [Float q] = ("", Raised TypeError)).
Proof. repeat split. Qed.

End LineTypes.

(** C4, evaluated on the sample text: counting the word cat gives the list
    holding the integer 2, not a string; the readability command gives the
    list holding the score; [output_to_file] raises [TypeError] on both,
    while the ranking of the same text is a list of strings. *)
Theorem count_output_line_is_not_a_string :
  get_output sample_text (element_args "count" "w" (Some "cat") false "" 10)
    [] sample_env = ([], Returned (Some [Int 2])) /\
  forallb is_str [Int 2] = false /\
  output_to_file "text_out.txt" [Int 2] = ("", Raised TypeError) /\
  get_Gunning_output sample_text = Returned [Float (196 # 140)] /\
  output_to_file "text_out.txt" [Float (196 # 140)] = ("", Raised TypeError) /\
  get_output sample_text (element_args "count" "w" None true "" 2)
    [] sample_env
    = ([], Returned (Some [Str ("2: the" ++ nl); Str ("2: cat" ++ nl)])).
Proof. repeat split. Qed.

(** ** Formatted rankings *)

Lemma nth_error_skipn {A} (l : list A) (i : nat) (x : A) :
  nth_error l i = Some x -> skipn i l = x :: skipn (S i) l.
Proof.
  revert l. induction i as [|i IH]; intros [|y l]; simpl; try discriminate.
  - now intros [= ->].
  - intros Hn. now rewrite (IH l Hn).
Qed.

Lemma ranked_loop_seq (rank_list : ranking) (n i : nat) (acc : list string) :
  i + n <= List.length rank_list ->
  ranked_loop rank_list (seq i n) acc
    = Returned (acc ++ map ranked_line (filter shown (firstn n (skipn i rank_list))))%list.
Proof.
  revert i acc. induction n as [|n IH]; intros i acc Hlen; simpl.
  - now rewrite List.app_nil_r.
  - destruct (nth_error rank_list i) as [[element c]|] eqn:E.
    + rewrite (nth_error_skipn _ _ _ E). simpl. unfold shown at 1. simpl.
      destruct (c =? 0)%Z; simpl; rewrite IH by lia; [reflexivity|].
      now rewrite <- List.app_assoc.
    + apply nth_error_None in E. lia.
Qed.

(** The loop never leaves the list: the output is the formatting of the
    shown entries among the first [number_to_show]. *)
Lemma generate_ranked_list_output_eq (rank_list : ranking) (number_to_show : Z) :
  generate_ranked_list_output rank_list number_to_show
    = Returned (map ranked_line
                  (filter shown (firstn (Z.to_nat number_to_show) rank_list))).
Proof.
  unfold generate_ranked_list_output, get_last_index_for_output, range.
  destruct (Z.ltb_spec (Z.of_nat (List.length rank_list)) number_to_show) as [Hlt|Hge].
  - rewrite Nat2Z.id, ranked_loop_seq by lia. simpl.
    rewrite !firstn_all2 by lia. reflexivity.
  - rewrite ranked_loop_seq by lia. reflexivity.
Qed.

(** The decimal notation of a non-zero integer does not start with 0. *)
Lemma to_uint_head (p : positive) :
  match Pos.to_uint p with
  | Decimal.Nil | Decimal.D0 _ => False
  | _ => True
  end.
Proof.
  pose proof (DecimalPos.Unsigned.to_uint_nonzero p) as Hnz.
  assert (Hnorm : Decimal.unorm (Pos.to_uint p) = Pos.to_uint p).
  { rewrite <- (DecimalPos.Unsigned.to_of (Pos.to_uint p)).
    now rewrite DecimalPos.Unsigned.of_to. }
  destruct (Pos.to_uint p) as [|d| | | | | | | | |] eqn:E; try exact I.
  - now apply (DecimalPos.Unsigned.to_uint_nonnil p).
  - rewrite DecimalFacts.unorm_D0 in Hnorm.
    destruct d as [|d'| | | | | | | | |] eqn:Ed;
      try (pose proof (DecimalFacts.nb_digits_unorm d) as Hd; subst d;
           rewrite Hnorm in Hd; simpl in Hd;
           specialize (Hd ltac:(discriminate)); lia).
    now apply Hnz.
Qed.

Lemma str_of_int_head (n : Z) :
  n <> 0%Z ->
  exists c rest, str_of_int n = String c rest /\ c <> "0"%char.
Proof.
  intros Hn. unfold str_of_int.
  destruct n as [|p|p]; [contradiction| |]; simpl.
  - pose proof (to_uint_head p) as Hh.
    destruct (Pos.to_uint p); try contradiction; simpl;
      eexists; eexists; (split; [reflexivity|discriminate]).
  - eexists; eexists; (split; [reflexivity|discriminate]).
Qed.

Lemma ranked_line_zero (element element' : string) (c : Z) :
  ranked_line (element, 0%Z) = ranked_line (element', c) -> c = 0%Z.
Proof.
  intros Heq. destruct (Z.eq_dec c 0) as [|Hc]; [assumption|exfalso].
  destruct (str_of_int_head c Hc) as (ch & rest & Hs & Hch).
  unfold ranked_line in Heq. rewrite Hs in Heq. simpl in Heq.
  injection Heq as Hhead _. now apply Hch.
Qed.

(** C2.  For every ranking and every number to show, the formatting
    returns (it never raises), with at most that number of lines (none for
    a negative number); when the ranking has fewer entries than the number
    to show, all its entries are taken, in order, and each entry of
    non-zero count is formatted; no formatted line is that of an entry of
    count 0, every line being the line of an entry of non-zero count. *)
Theorem generate_ranked_list_output_lines (rank_list : ranking) (number_to_show : Z) :
  exists lines,
    generate_ranked_list_output rank_list number_to_show = Returned lines /\
    List.length lines <= Z.to_nat number_to_show /\
    ((0 <= number_to_show)%Z ->
     (Z.of_nat (List.length lines) <= number_to_show)%Z) /\
    ((Z.of_nat (List.length rank_list) < number_to_show)%Z ->
     lines = map ranked_line (filter shown rank_list) /\
     forall entry, In entry rank_list -> snd entry <> 0%Z ->
                   In (ranked_line entry) lines) /\
    (forall element, ~ In (ranked_line (element, 0%Z)) lines) /\
    (forall line, In line lines ->
       exists element c,
         In (element, c) rank_list /\ c <> 0%Z /\ line = ranked_line (element, c)).
Proof.
  eexists. split; [apply generate_ranked_list_output_eq|].
  set (taken := firstn (Z.to_nat number_to_show) rank_list).
  assert (Hlen : List.length (map ranked_line (filter shown taken))
                 <= Z.to_nat number_to_show).
  { rewrite length_map.
    pose proof (filter_length_le shown taken) as Hf.
    pose proof (firstn_le_length (Z.to_nat number_to_show) rank_list) as Ht.
    fold taken in Ht. lia. }
  assert (Hsrc : forall line, In line (map ranked_line (filter shown taken)) ->
            exists element c,
              In (element, c) rank_list /\ c <> 0%Z /\ line = ranked_line (element, c)).
  { intros line Hin. apply in_map_iff in Hin as ([element c] & <- & Hin).
    apply filter_In in Hin as [Hin Hshown].
    exists element, c. repeat split.
    - unfold taken in Hin.
      rewrite <- (firstn_skipn (Z.to_nat number_to_show) rank_list).
      apply in_or_app. now left.
    - unfold shown in Hshown. simpl in Hshown.
      intros ->. discriminate Hshown. }
  split; [exact Hlen|]. split; [lia|]. split; [|split; [|exact Hsrc]].
  - intros Hfew. unfold taken. rewrite firstn_all2 by lia.
    split; [reflexivity|].
    intros entry Hin Hnz. apply in_map, filter_In. split; [exact Hin|].
    unfold shown. now apply negb_true_iff, Z.eqb_neq.
  - intros element Hin. destruct (Hsrc _ Hin) as (element' & c & _ & Hc & Heq).
    now apply ranked_line_zero in Heq.
Qed.

Lemma generate_ranked_list_output_lines_witness :
  exists lines,
    generate_ranked_list_output [("the", 2%Z); ("of", 0%Z); ("cat", 1%Z)] 5
      = Returned lines /\
    lines = map ranked_line [("the", 2%Z); ("cat", 1%Z)] /\
    (Z.of_nat (List.length lines) <= 5)%Z.
Proof.
  destruct (generate_ranked_list_output_lines
              [("the", 2%Z); ("of", 0%Z); ("cat", 1%Z)] 5)
    as (lines & Hr & _ & Hmost & Hfew & _).
  exists lines. split; [exact Hr|]. split.
  - apply Hfew. reflexivity.
  - apply Hmost. discriminate.
Defined.

Example generate_ranked_list_output_negative :
  generate_ranked_list_output [("the", 2%Z); ("cat", 1%Z)] (-1) = Returned [].
Proof. reflexivity. Qed.

Example generate_ranked_list_output_truncates :
  generate_ranked_list_output [("the", 2%Z); ("cat", 1%Z)] 1
    = Returned ["2: the" ++ nl].
Proof. reflexivity. Qed.

(** ** Readability *)

Section ReadabilityPropagates.

Context {Text : Type} `{TextAPI Text}.

(** [get_Gunning_output] divides nothing itself: it ends the way the
    method of the text ends. *)
Lemma get_Gunning_output_raises (text : Text) (e : exn) :
  get_Gunning_output text = Raised e <->
  calculate_Gunning_Fog_Index text = Raised e.
Proof.
  unfold get_Gunning_output.
  destruct (calculate_Gunning_Fog_Index text); simpl; split; congruence.
Qed.

End ReadabilityPropagates.

(** C5.  On a text without sentences or without words the readability
    command ends with the typed failure [DivisionGuardError]; on no text at
    all does it end with a [ZeroDivisionError]; on every other text it
    returns the score of the formula. *)
Theorem gunning_fog_guarded (text : Texttools.Text) :
  (Texttools.sentences_of (Texttools.raw text) = [] \/
   Texttools.words_of (Texttools.raw text) = [] ->
   get_Gunning_output text = Raised DivisionGuardError) /\
  get_Gunning_output text <> Raised ZeroDivisionError /\
  (Texttools.sentences_of (Texttools.raw text) <> [] ->
   Texttools.words_of (Texttools.raw text) <> [] ->
   let ws := Texttools.words_of (Texttools.raw text) in
   let ss := Texttools.sentences_of (Texttools.raw text) in
   get_Gunning_output text
     = Returned [Float ((4 # 10) *
                        (Texttools.count_of ws / Texttools.count_of ss
                         + 100 * (Texttools.count_of (Texttools.complex_words ws)
                                  / Texttools.count_of ws)))%Q]).
Proof.
  unfold get_Gunning_output. simpl.
  unfold Texttools.calculate_Gunning_Fog_Index.
  destruct (Texttools.sentences_of (Texttools.raw text)) as [|s ss];
    destruct (Texttools.words_of (Texttools.raw text)) as [|w ws];
    simpl; repeat split; try congruence; try discriminate;
    try (intros [?|?]; congruence).
Qed.

Lemma gunning_fog_guarded_witness :
  get_Gunning_output {| Texttools.raw := "no terminal punctuation" |}
    = Returned [Float (836 # 30)] /\
  get_Gunning_output {| Texttools.raw := "... !?" |} = Raised DivisionGuardError /\
  get_Gunning_output {| Texttools.raw := "" |} = Raised DivisionGuardError.
Proof.
  split; [|split].
  - refine (proj2 (proj2 (gunning_fog_guarded
                            {| Texttools.raw := "no terminal punctuation" |}))
                   _ _); discriminate.
  - apply (proj1 (gunning_fog_guarded {| Texttools.raw := "... !?" |})).
    left. reflexivity.
  - apply (proj1 (gunning_fog_guarded {| Texttools.raw := "" |})).
    right. reflexivity.
Defined.

(** ** Rankings by total count *)

Section Before.

Context {A : Type}.

Lemma before_in (l : list A) (x y : A) : before l x y -> In x l /\ In y l.
Proof.
  induction 1 as [x l y Hy | z l x y _ [IHx IHy]]; simpl; auto.
Qed.

Lemma before_snoc (l : list A) (t x y : A) :
  before (l ++ [t]) x y -> before l x y \/ (In x l /\ y = t).
Proof.
  induction l as [|z l IH]; simpl; intros Hb.
  - inversion Hb as [? ? ? Hin | ? ? ? ? Hb']; subst; [contradiction|inversion Hb'].
  - inversion Hb as [? ? ? Hin | ? ? ? ? Hb']; subst.
    + apply in_app_or in Hin as [Hin | [<- | []]].
      * left. now constructor.
      * right. auto.
    + destruct (IH Hb') as [Hl | [Hx ->]].
      * left. now constructor.
      * right. auto.
Qed.

Lemma before_nth_error (l : list A) (i j : nat) (x y : A) :
  i < j -> nth_error l i = Some x -> nth_error l j = Some y -> before l x y.
Proof.
  revert i j. induction l as [|z l IH]; intros i j Hij Hi Hj.
  - destruct i; discriminate.
  - destruct j as [|j]; [lia|]. destruct i as [|i]; simpl in *.
    + injection Hi as ->. constructor. now apply nth_error_In with j.
    + constructor. apply (IH i j); [lia|assumption..].
Qed.

Lemma before_map {B : Type} (f : A -> B) (l : list A) (x y : A) :
  before l x y -> before (map f l) (f x) (f y).
Proof.
  induction 1; simpl; constructor; auto using in_map.
Qed.

End Before.

Lemma insert_ranked_perm (x : string * Z) (r : ranking) :
  Permutation (Texttools.insert_ranked x r) (x :: r).
Proof.
  induction r as [|y r IH]; simpl; [reflexivity|].
  destruct (snd x <? snd y)%Z; [|reflexivity].
  rewrite IH. apply perm_swap.
Qed.

Lemma sort_ranked_perm (table : ranking) :
  Permutation (Texttools.sort_ranked table) table.
Proof.
  induction table as [|x t IH]; simpl; [reflexivity|].
  rewrite insert_ranked_perm. now constructor.
Qed.

Lemma insert_ranked_sorted (x : string * Z) (r : ranking) :
  StronglySorted count_ge r -> StronglySorted count_ge (Texttools.insert_ranked x r).
Proof.
  induction 1 as [|y r Hs IH Hy]; simpl.
  - repeat constructor.
  - destruct (Z.ltb_spec (snd x) (snd y)) as [Hlt|Hge].
    + constructor; [exact IH|].
      apply Forall_forall. intros z Hz.
      apply (Permutation_in _ (insert_ranked_perm x r)) in Hz as [<- | Hz].
      * unfold count_ge. lia.
      * now apply (proj1 (Forall_forall _ _) Hy).
    + constructor; [now constructor|].
      constructor; [exact Hge|].
      apply Forall_forall. intros z Hz.
      pose proof (proj1 (Forall_forall _ _) Hy z Hz) as Hyz.
      unfold count_ge in *. lia.
Qed.

Lemma sort_ranked_sorted (table : ranking) :
  StronglySorted count_ge (Texttools.sort_ranked table).
Proof.
  induction table as [|x t IH]; simpl; [constructor|].
  now apply insert_ranked_sorted.
Qed.

(** Where two entries of a ranking stand after an insertion. *)
Lemma before_insert_ranked (x : string * Z) (r : ranking) (p q : string * Z) :
  before (Texttools.insert_ranked x r) p q ->
  (p = x /\ In q r) \/ (q = x /\ In p r /\ (snd x < snd p)%Z) \/ before r p q.
Proof.
  induction r as [|y r IH]; simpl; intros Hb.
  - inversion Hb as [? ? ? Hin | ? ? ? ? Hb']; subst; [contradiction|inversion Hb'].
  - destruct (Z.ltb_spec (snd x) (snd y)) as [Hlt|Hge].
    + inversion Hb as [? ? ? Hin | ? ? ? ? Hb']; subst.
      * apply (Permutation_in _ (insert_ranked_perm x r)) in Hin as [<- | Hin].
        -- right; left. simpl. auto.
        -- right; right. now constructor.
      * destruct (IH Hb') as [[-> Hq] | [(-> & Hp & Hlt') | Hr]].
        -- left. simpl. auto.
        -- right; left. simpl. auto.
        -- right; right. now constructor.
    + inversion Hb as [? ? ? Hin | ? ? ? ? Hb']; subst.
      * left. auto.
      * right; right. exact Hb'.
Qed.

(** The sort is stable: entries of equal count keep their order. *)
Lemma sort_ranked_stable (table : ranking) (p q : string * Z) :
  before (Texttools.sort_ranked table) p q -> snd p = snd q -> before table p q.
Proof.
  induction table as [|x t IH]; simpl; intros Hb Heq.
  - inversion Hb.
  - destruct (before_insert_ranked _ _ _ _ Hb) as [[-> Hq] | [(-> & _ & Hlt) | Hr]].
    + constructor. now apply (Permutation_in _ (sort_ranked_perm t)).
    + lia.
    + constructor. now apply IH.
Qed.

(** The table of counts keeps its keys in the order of first appearance. *)

Lemma bump_keys_in (e : string) (w : Z) (table : ranking) :
  In e (map fst table) -> map fst (Texttools.bump e w table) = map fst table.
Proof.
  induction table as [|[k c] t IH]; simpl; [contradiction|].
  destruct (String.eqb_spec k e) as [->|Hne]; simpl; [reflexivity|].
  intros [Heq | Hin]; [contradiction|]. now rewrite IH.
Qed.

Lemma bump_keys_notin (e : string) (w : Z) (table : ranking) :
  ~ In e (map fst table) ->
  map fst (Texttools.bump e w table) = (map fst table ++ [e])%list.
Proof.
  induction table as [|[k c] t IH]; simpl; [reflexivity|].
  intros Hn. destruct (String.eqb_spec k e) as [->|Hne]; simpl.
  - exfalso. apply Hn. now left.
  - rewrite IH; [reflexivity|]. intros Hin. apply Hn. now right.
Qed.

Lemma count_all_snoc (toks : list string) (t : string) :
  Texttools.count_all (toks ++ [t])
    = Texttools.bump t 1%Z (Texttools.count_all toks).
Proof. unfold Texttools.count_all. now rewrite fold_left_app. Qed.

Lemma count_all_keys (toks : list string) (k : string) :
  In k (map fst (Texttools.count_all toks)) <-> In k toks.
Proof.
  induction toks as [|t toks IH] using rev_ind; [simpl; tauto|].
  rewrite count_all_snoc, in_app_iff. simpl.
  destruct (in_dec string_dec t (map fst (Texttools.count_all toks))) as [Hin|Hn].
  - rewrite bump_keys_in by assumption. rewrite IH.
    split; [tauto|]. intros [Hk | [<- | []]]; [assumption|now apply IH].
  - rewrite bump_keys_notin, in_app_iff by assumption. simpl. now rewrite IH.
Qed.

Lemma first_index_lt (e : string) (toks : list string) :
  In e toks -> Texttools.first_index e toks < List.length toks.
Proof.
  induction toks as [|t toks IH]; simpl; [contradiction|].
  destruct (String.eqb_spec t e) as [->|Hne]; [lia|].
  intros [Heq | Hin]; [contradiction|]. apply IH in Hin. lia.
Qed.

Lemma first_index_app_in (e : string) (toks more : list string) :
  In e toks ->
  Texttools.first_index e (toks ++ more) = Texttools.first_index e toks.
Proof.
  induction toks as [|t toks IH]; simpl; [contradiction|].
  destruct (String.eqb_spec t e) as [->|Hne]; [reflexivity|].
  intros [Heq | Hin]; [contradiction|]. now rewrite IH.
Qed.

Lemma first_index_app_notin (e : string) (toks : list string) :
  ~ In e toks -> Texttools.first_index e (toks ++ [e]) = List.length toks.
Proof.
  induction toks as [|t toks IH]; simpl; intros Hn.
  - now rewrite String.eqb_refl.
  - destruct (String.eqb_spec t e) as [->|Hne]; [exfalso; auto|].
    rewrite IH; [reflexivity|]. intros Hin. apply Hn. now right.
Qed.

Lemma count_all_order (toks : list string) (k1 k2 : string) :
  before (map fst (Texttools.count_all toks)) k1 k2 ->
  Texttools.first_index k1 toks < Texttools.first_index k2 toks.
Proof.
  induction toks as [|t toks IH] using rev_ind; [intros Hb; inversion Hb|].
  rewrite count_all_snoc.
  assert (Hold : before (map fst (Texttools.count_all toks)) k1 k2 ->
                 Texttools.first_index k1 (toks ++ [t])
                 < Texttools.first_index k2 (toks ++ [t])).
  { intros Hb. destruct (before_in _ _ _ Hb) as [H1 H2].
    apply (proj1 (count_all_keys _ _)) in H1.
    apply (proj1 (count_all_keys _ _)) in H2.
    rewrite (first_index_app_in k1), (first_index_app_in k2) by assumption.
    now apply IH. }
  destruct (in_dec string_dec t (map fst (Texttools.count_all toks))) as [Hin|Hn].
  - rewrite bump_keys_in by assumption. exact Hold.
  - rewrite bump_keys_notin by assumption. intros Hb.
    apply before_snoc in Hb as [Hb | [H1 ->]]; [now apply Hold|].
    apply (proj1 (count_all_keys _ _)) in H1.
    rewrite first_index_app_in by assumption.
    rewrite first_index_app_notin.
    + now apply first_index_lt.
    + intros Hin. apply Hn. now apply count_all_keys.
Qed.

Lemma bump_positive (e : string) (table : ranking) :
  Forall (fun p => (0 < snd p)%Z) table ->
  Forall (fun p => (0 < snd p)%Z) (Texttools.bump e 1%Z table).
Proof.
  induction 1 as [|[k c] t Hc Ht IH]; simpl.
  - repeat constructor.
  - destruct (String.eqb k e); constructor; simpl in *; auto; lia.
Qed.

Lemma count_all_positive (toks : list string) :
  Forall (fun p => (0 < snd p)%Z) (Texttools.count_all toks).
Proof.
  induction toks as [|t toks IH] using rev_ind; [constructor|].
  rewrite count_all_snoc. now apply bump_positive.
Qed.

(** The counts of the table add up to the number of tokens. *)
Lemma bump_total (e : string) (w : Z) (table : ranking) :
  fold_right Z.add 0%Z (map snd (Texttools.bump e w table))
    = (fold_right Z.add 0%Z (map snd table) + w)%Z.
Proof.
  induction table as [|[k c] t IH]; simpl; [lia|].
  destruct (String.eqb k e); simpl; [|rewrite IH]; lia.
Qed.

Lemma count_all_total (toks : list string) :
  fold_right Z.add 0%Z (map snd (Texttools.count_all toks))
    = Z.of_nat (List.length toks).
Proof.
  induction toks as [|t toks IH] using rev_ind; [reflexivity|].
  rewrite count_all_snoc, bump_total, IH, length_app. simpl. lia.
Qed.

Lemma shown_all_positive (r : ranking) :
  Forall (fun p => (0 < snd p)%Z) r -> filter shown r = r.
Proof.
  induction 1 as [|p r Hp Hr IH]; simpl; [reflexivity|].
  unfold shown at 1. destruct (Z.eqb_spec (snd p) 0); [lia|]. simpl. now rewrite IH.
Qed.

(** The tokens of a text are returned exactly for the three element type
    names and a text that has tokens of the type. *)
Lemma tokens_returned (text : Texttools.Text) (element_type : string)
    (toks : list string) :
  Texttools.tokens text element_type = Returned toks <->
  toks <> [] /\
  ((element_type = "words" /\
    toks = map Texttools.lower (Texttools.words_of (Texttools.raw text))) \/
   (element_type = "characters" /\
    toks = Texttools.characters_of (Texttools.raw text)) \/
   (element_type = "sentences" /\
    toks = Texttools.sentences_of (Texttools.raw text))).
Proof.
  unfold Texttools.tokens.
  destruct (String.eqb_spec element_type "words") as [->|Hw]; simpl.
  { destruct (map Texttools.lower (Texttools.words_of (Texttools.raw text)))
      as [|t l]; split.
    - discriminate.
    - intros [Hne [[_ ->] | [[[=] _] | [[=] _]]]]. contradiction.
    - intros [= <-]. split; [discriminate|]. left. auto.
    - intros [_ [[_ ->] | [[[=] _] | [[=] _]]]]. reflexivity. }
  destruct (String.eqb_spec element_type "characters") as [->|Hc]; simpl.
  { destruct (Texttools.characters_of (Texttools.raw text)) as [|t l]; split.
    - discriminate.
    - intros [Hne [[[=] _] | [[_ ->] | [[=] _]]]]. contradiction.
    - intros [= <-]. split; [discriminate|]. right; left. auto.
    - intros [_ [[[=] _] | [[_ ->] | [[=] _]]]]. reflexivity. }
  destruct (String.eqb_spec element_type "sentences") as [->|Hs]; simpl.
  { destruct (Texttools.sentences_of (Texttools.raw text)) as [|t l]; split.
    - discriminate.
    - intros [Hne [[[=] _] | [[[=] _] | [_ ->]]]]. contradiction.
    - intros [= <-]. split; [discriminate|]. right; right. auto.
    - intros [_ [[[=] _] | [[[=] _] | [_ ->]]]]. reflexivity. }
  split; [discriminate|].
  intros [_ [[E _] | [[E _] | [E _]]]]; contradiction.
Qed.

(** C1.  For a text with tokens of the element type, the ranking by total
    count is sorted by count, larger first, and of two entries of equal
    count the one whose element appears first in the text comes first; the
    lines of the total count command follow that order. *)
Theorem rank_by_total_count_sorted_stable (text : Texttools.Text)
    (element_type : string) (toks : list string) :
  Texttools.tokens text element_type = Returned toks ->
  exists ranked,
    Texttools.rank_by_total_count text element_type = Returned ranked /\
    StronglySorted count_ge ranked /\
    (forall i j p q,
       i < j -> nth_error ranked i = Some p -> nth_error ranked j = Some q ->
       snd p = snd q ->
       Texttools.first_index (fst p) toks < Texttools.first_index (fst q) toks) /\
    (forall e, In e toks <-> In e (map fst ranked)) /\
    (forall number_to_display,
       get_totalcount_output text element_type number_to_display
         = Returned (map ranked_line (firstn (Z.to_nat number_to_display) ranked))).
Proof.
  intros Htok. exists (Texttools.sort_ranked (Texttools.count_all toks)).
  assert (Hrank : Texttools.rank_by_total_count text element_type
                  = Returned (Texttools.sort_ranked (Texttools.count_all toks))).
  { unfold Texttools.rank_by_total_count. now rewrite Htok. }
  split; [exact Hrank|]. split; [apply sort_ranked_sorted|]. split; [|split].
  - intros i j p q Hij Hi Hj Heq.
    apply count_all_order.
    apply (before_map fst), sort_ranked_stable; [|exact Heq].
    now apply before_nth_error with i j.
  - intros e. rewrite <- count_all_keys.
    split; apply Permutation_in, Permutation_map;
      [symmetry|]; apply sort_ranked_perm.
  - intros n. unfold get_totalcount_output. simpl. rewrite Hrank. simpl.
    rewrite generate_ranked_list_output_eq, shown_all_positive; [reflexivity|].
    apply Forall_forall. intros p Hp.
    assert (Hin : In p (Texttools.sort_ranked (Texttools.count_all toks))).
    { rewrite <- (firstn_skipn (Z.to_nat n)). apply in_or_app. now left. }
    clear Hp. rename Hin into Hp.
    apply (Permutation_in _ (sort_ranked_perm _)) in Hp.
    now apply (proj1 (Forall_forall _ _) (count_all_positive toks)).
Qed.

Lemma rank_by_total_count_sorted_stable_witness :
  exists ranked,
    Texttools.rank_by_total_count sample_text "words" = Returned ranked /\
    StronglySorted count_ge ranked /\
    ranked = [("the", 2%Z); ("cat", 2%Z); ("sat", 1%Z); ("ran", 1%Z); ("fast", 1%Z)].
Proof.
  destruct (rank_by_total_count_sorted_stable sample_text "words"
              ["the"; "cat"; "sat"; "the"; "cat"; "ran"; "fast"] eq_refl)
    as (ranked & Hr & Hs & _).
  exists ranked. split; [exact Hr|]. split; [exact Hs|].
  injection Hr as <-. reflexivity.
Defined.

(** ** Poems *)

(** *** The output lines of a list of poems *)

Lemma fold_left_lines (p : poem) (acc : list string) :
  fold_left (fun acc line => (acc ++ [(line ++ nl)%string])%list) p acc
    = (acc ++ map (fun line => (line ++ nl)%string) p)%list.
Proof.
  revert acc. induction p as [|line p IH]; intros acc; simpl.
  - now rewrite List.app_nil_r.
  - now rewrite IH, <- List.app_assoc.
Qed.

Lemma fold_left_append_poem (poems : list poem) (acc : list string) :
  fold_left append_poem poems acc = (acc ++ formatted_poems poems)%list.
Proof.
  revert acc. induction poems as [|p poems IH]; intros acc; simpl.
  - now rewrite List.app_nil_r.
  - rewrite IH. unfold append_poem. rewrite fold_left_lines.
    now rewrite <- !List.app_assoc.
Qed.

Lemma length_formatted_poems (poems : list poem) (k : nat) :
  Forall (fun p => List.length p = k) poems ->
  List.length (formatted_poems poems) = List.length poems * (k + 1).
Proof.
  induction 1 as [|p poems Hp _ IH]; simpl; [reflexivity|].
  rewrite !length_app, length_map, IH, Hp. reflexivity.
Qed.

Section PoemOutput.

Context {Text : Type} `{TextAPI Text}.

(** Whatever the generator, [get_poem_output] formats the poems it
    returns, in order, and fails as it fails. *)
Lemma get_poem_output_formatted (text : Text) (pattern : list Z) (n : Z)
    (rnd : randomness) :
  get_poem_output text pattern n rnd
    = (poems <- generate_poems text pattern n rnd ;;
       Returned (formatted_poems poems)).
Proof.
  unfold get_poem_output.
  destruct (generate_poems text pattern n rnd); simpl; [|reflexivity..].
  now rewrite fold_left_append_poem.
Qed.

End PoemOutput.

(** *** Syllables and reachability *)

Lemma estimateSyllables_positive (w : string) : 1 <= Texttools.estimateSyllables w.
Proof. unfold Texttools.estimateSyllables. lia. Qed.

Lemma reach_sound (vocab : list string) (fuel target : nat) :
  Texttools.reach vocab fuel target = true -> Texttools.reachable vocab target.
Proof.
  revert target.
  induction fuel as [|fuel IH]; intros [|t]; cbn [Texttools.reach]; intros Hr;
    try discriminate; try (exists []; split; [constructor|reflexivity]).
  apply existsb_exists in Hr as (w & Hw & Hr).
  apply andb_true_iff in Hr as [Hle Hr]. apply Nat.leb_le in Hle.
  destruct (IH _ Hr) as (ws & Hws & Hsum).
  exists (w :: ws). split; [now constructor|].
  unfold Texttools.syllables_of in *. simpl. lia.
Qed.

Lemma reach_complete (vocab : list string) (fuel target : nat) :
  Texttools.reachable vocab target -> target <= fuel ->
  Texttools.reach vocab fuel target = true.
Proof.
  revert target.
  induction fuel as [|fuel IH]; intros [|t] Hr Hle; cbn [Texttools.reach];
    try reflexivity; [lia|].
  destruct Hr as ([|w ws] & Hws & Hsum); [discriminate|].
  apply Forall_cons_iff in Hws as [Hw Hws].
  unfold Texttools.syllables_of in Hsum. simpl in Hsum.
  pose proof (estimateSyllables_positive w) as Hpos.
  apply existsb_exists. exists w. split; [exact Hw|].
  apply andb_true_iff. split; [apply Nat.leb_le; lia|].
  apply IH; [|lia].
  exists ws. split; [exact Hws|]. unfold Texttools.syllables_of. lia.
Qed.

Lemma candidates_spec (vocab : list string) (remaining : nat) (w : string) :
  In w (Texttools.candidates vocab remaining) <->
  In w vocab /\ Texttools.estimateSyllables w <= remaining /\
  Texttools.reachable vocab (remaining - Texttools.estimateSyllables w).
Proof.
  unfold Texttools.candidates. rewrite filter_In, andb_true_iff, Nat.leb_le.
  split; intros (Hw & Hle & Hr); repeat split; auto.
  - now apply reach_sound in Hr.
  - now apply reach_complete.
Qed.

Lemma candidates_not_nil (vocab : list string) (remaining : nat) :
  Texttools.reachable vocab (S remaining) ->
  Texttools.candidates vocab (S remaining) <> [].
Proof.
  intros ([|w ws] & Hws & Hsum); [discriminate|].
  apply Forall_cons_iff in Hws as [Hw Hws].
  unfold Texttools.syllables_of in Hsum. simpl in Hsum.
  assert (Hin : In w (Texttools.candidates vocab (S remaining))).
  { apply candidates_spec. repeat split; [exact Hw|lia|].
    exists ws. split; [exact Hws|]. unfold Texttools.syllables_of. lia. }
  intros E. rewrite E in Hin. contradiction.
Qed.

(** With a reachable target and enough fuel a line is always produced,
    made of fragments of the vocabulary that sum to the target. *)
Lemma gen_line_reaches (vocab : list string) (rnd : randomness)
    (fuel remaining pos : nat) :
  Texttools.reachable vocab remaining -> remaining <= fuel ->
  exists ws pos',
    Texttools.gen_line vocab fuel remaining rnd pos = Some (ws, pos') /\
    Forall (fun w => In w vocab) ws /\
    Texttools.syllables_of ws = remaining.
Proof.
  revert remaining pos.
  induction fuel as [|fuel IH]; intros [|r] pos Hr Hle;
    try (exists [], pos; repeat split; constructor); [lia|].
  cbn [Texttools.gen_line].
  pose proof (candidates_not_nil vocab r Hr) as Hnn.
  set (cands := Texttools.candidates vocab (S r)) in *.
  assert (Hlen : rnd pos mod List.length cands < List.length cands).
  { apply Nat.mod_upper_bound. destruct cands; [contradiction|discriminate]. }
  destruct (nth_error cands (rnd pos mod List.length cands)) as [w|] eqn:E;
    [|apply nth_error_None in E; lia].
  apply nth_error_In in E. apply candidates_spec in E as (Hw & Hfit & Hrest).
  pose proof (estimateSyllables_positive w) as Hpos.
  destruct (IH (S r - Texttools.estimateSyllables w) (S pos) Hrest ltac:(lia))
    as (ws & pos' & -> & Hws & Hsum).
  exists (w :: ws), pos'. repeat split; [now constructor|].
  unfold Texttools.syllables_of in *. simpl. lia.
Qed.

(** *** Lines are read back as their fragments *)

Lemma append_assoc (a b c : string) : ((a ++ b) ++ c = a ++ (b ++ c))%string.
Proof. induction a as [|x a IH]; simpl; [reflexivity|now rewrite IH]. Qed.

Lemma append_empty_r (a : string) : (a ++ "")%string = a.
Proof. induction a as [|x a IH]; simpl; [reflexivity|now rewrite IH]. Qed.

Lemma all_word_chars_app (a b : string) :
  all_word_chars (a ++ b) = all_word_chars a && all_word_chars b.
Proof.
  induction a as [|x a IH]; simpl; [reflexivity|].
  now rewrite IH, andb_assoc.
Qed.

Lemma words_from_run (cur w rest : string) :
  all_word_chars w = true ->
  Texttools.words_from cur (w ++ rest) = Texttools.words_from (cur ++ w) rest.
Proof.
  revert cur. induction w as [|c w IH]; intros cur Hw; simpl.
  - now rewrite append_empty_r.
  - simpl in Hw. apply andb_true_iff in Hw as [Hc Hw].
    rewrite Hc, IH by assumption. now rewrite append_assoc.
Qed.

Lemma words_from_ok (cur s : string) :
  all_word_chars cur = true ->
  Forall (fun w => word_ok w = true) (Texttools.words_from cur s).
Proof.
  revert cur. induction s as [|c s IH]; intros cur Hcur; simpl.
  - destruct (truthy_str cur) eqn:E; [|constructor].
    constructor; [|constructor]. unfold word_ok. now rewrite E, Hcur.
  - destruct (Texttools.is_word_char c) eqn:Ec.
    + apply IH. rewrite all_word_chars_app, Hcur. simpl. now rewrite Ec.
    + destruct (truthy_str cur) eqn:E; [|now apply IH].
      constructor; [|now apply IH]. unfold word_ok. now rewrite E, Hcur.
Qed.

Lemma words_of_ok (s : string) :
  Forall (fun w => word_ok w = true) (Texttools.words_of s).
Proof. now apply words_from_ok. Qed.

(** The words of fragments joined by single spaces are the fragments. *)
Lemma words_of_join (ws : list string) :
  Forall (fun w => word_ok w = true) ws ->
  Texttools.words_of (join " " ws) = ws.
Proof.
  unfold Texttools.words_of.
  induction 1 as [|w ws Hw Hws IH]; [reflexivity|].
  unfold word_ok in Hw. apply andb_true_iff in Hw as [Hne Hall].
  destruct ws as [|w' ws].
  - simpl. rewrite <- (append_empty_r w) at 1.
    rewrite words_from_run by assumption. simpl. now rewrite Hne.
  - change (join " " (w :: w' :: ws))
      with (w ++ String " " (join " " (w' :: ws)))%string.
    rewrite words_from_run by assumption.
    cbn [Texttools.words_from append].
    change (Texttools.is_word_char " ") with false. cbv iota.
    now rewrite Hne, IH.
Qed.

(** *** The generator *)

Lemma gen_lines_meet (vocab : list string) (rnd : randomness) (pattern : list Z)
    (pos : nat) :
  Forall (fun w => word_ok w = true) vocab ->
  Forall (fun target => (0 <= target)%Z /\
                        Texttools.reachable vocab (Z.to_nat target)) pattern ->
  exists lines pos',
    Texttools.gen_lines vocab pattern rnd pos = Returned (lines, pos') /\
    Forall2 meets lines pattern.
Proof.
  intros Hvocab Hsat. revert pos.
  induction Hsat as [|target pattern [Hpos Hreach] _ IH]; intros pos.
  - exists [], pos. split; [reflexivity|constructor].
  - cbn [Texttools.gen_lines].
    destruct (Z.ltb_spec target 0) as [Hneg|_]; [lia|].
    destruct (gen_line_reaches vocab rnd (Z.to_nat target) (Z.to_nat target) pos
                Hreach (Nat.le_refl _))
      as (ws & pos1 & -> & Hws & Hsum).
    destruct (IH pos1) as (lines & pos2 & -> & Hlines).
    exists (join " " ws :: lines), pos2. split; [reflexivity|].
    constructor; [|exact Hlines].
    unfold meets, Texttools.line_syllables.
    rewrite words_of_join, Hsum; [lia|].
    apply Forall_forall. intros w Hw.
    apply (proj1 (Forall_forall _ _) Hvocab).
    now apply (proj1 (Forall_forall _ _) Hws).
Qed.

Lemma gen_poems_meet (vocab : list string) (rnd : randomness) (pattern : list Z)
    (n pos : nat) :
  Forall (fun w => word_ok w = true) vocab ->
  Forall (fun target => (0 <= target)%Z /\
                        Texttools.reachable vocab (Z.to_nat target)) pattern ->
  exists poems,
    Texttools.gen_poems vocab pattern n rnd pos = Returned poems /\
    List.length poems = n /\
    Forall (fun p => Forall2 meets p pattern) poems.
Proof.
  intros Hvocab Hsat. revert pos.
  induction n as [|n IH]; intros pos.
  - exists []. repeat split. constructor.
  - cbn [Texttools.gen_poems].
    destruct (gen_lines_meet vocab rnd pattern pos Hvocab Hsat)
      as (lines & pos1 & -> & Hlines).
    destruct (IH pos1) as (poems & Hgen & Hlen & Hall).
    simpl. rewrite Hgen. simpl.
    exists (lines :: poems). repeat split; [simpl; lia|now constructor].
Qed.

(** C6.  For a pattern satisfiable by the vocabulary of the text and a
    requested number [n] of poems, the generator returns [n] poems (none
    when [n] is negative), each with one line per pattern entry, each line
    with exactly the estimated syllable count of its entry; the output of
    the poem command is, per poem in order, each line with a trailing
    newline and then a blank separator line, [n * (len(pattern) + 1)]
    strings in all. *)
Theorem generate_poems_output (text : Texttools.Text) (pattern : list Z) (n : Z)
    (rnd : randomness) :
  Texttools.satisfiable text pattern ->
  exists poems,
    generate_poems text pattern n rnd = Returned poems /\
    List.length poems = Z.to_nat n /\
    ((0 <= n)%Z -> Z.of_nat (List.length poems) = n) /\
    Forall (fun p => List.length p = List.length pattern /\
                     Forall2 meets p pattern) poems /\
    get_poem_output text pattern n rnd = Returned (formatted_poems poems) /\
    List.length (formatted_poems poems) = Z.to_nat n * (List.length pattern + 1) /\
    ((0 <= n)%Z ->
     Z.of_nat (List.length (formatted_poems poems))
       = (n * (Z.of_nat (List.length pattern) + 1))%Z).
Proof.
  intros Hsat.
  destruct (gen_poems_meet (Texttools.words_of (Texttools.raw text)) rnd pattern
              (Z.to_nat n) 0 (words_of_ok _) Hsat)
    as (poems & Hgen & Hlen & Hall).
  assert (Hshape : Forall (fun p => List.length p = List.length pattern /\
                                    Forall2 meets p pattern) poems).
  { apply Forall_forall. intros p Hp.
    pose proof (proj1 (Forall_forall _ _) Hall p Hp) as Hm.
    split; [now apply Forall2_length in Hm|exact Hm]. }
  assert (Hout : List.length (formatted_poems poems)
                 = Z.to_nat n * (List.length pattern + 1)).
  { rewrite <- Hlen. apply length_formatted_poems.
    apply Forall_forall. intros p Hp.
    now apply (proj1 (Forall_forall _ _) Hshape p Hp). }
  exists poems. split; [exact Hgen|]. split; [exact Hlen|].
  split; [intros Hn; rewrite Hlen; now apply Z2Nat.id|].
  split; [exact Hshape|]. split; [|split; [exact Hout|]].
  - rewrite get_poem_output_formatted. simpl.
    change (Texttools.generate_poems text pattern n rnd)
      with (Texttools.gen_poems (Texttools.words_of (Texttools.raw text))
              pattern (Z.to_nat n) rnd 0).
    now rewrite Hgen.
  - intros Hn. rewrite Hout. lia.
Qed.

Lemma generate_poems_output_witness :
  exists poems,
    generate_poems sample_text [3; 2]%Z 2 (fun i => i) = Returned poems /\
    Z.of_nat (List.length poems) = 2%Z /\
    Z.of_nat (List.length (formatted_poems poems)) = 6%Z.
Proof.
  assert (Hsat : Texttools.satisfiable sample_text [3; 2]%Z).
  { apply Forall_cons; [split; [discriminate|]|].
    - exists ["The"; "cat"; "sat"]. split; [|reflexivity].
      repeat apply Forall_cons; try apply Forall_nil; simpl; auto 10.
    - apply Forall_cons; [split; [discriminate|]|apply Forall_nil].
      exists ["ran"; "fast"]. split; [|reflexivity].
      repeat apply Forall_cons; try apply Forall_nil; simpl; auto 10. }
  destruct (generate_poems_output sample_text [3; 2]%Z 2 (fun i => i) Hsat)
    as (poems & Hgen & _ & Hn & _ & _ & _ & Hout).
  exists poems. split; [exact Hgen|]. split.
  - apply Hn. discriminate.
  - apply Hout. discriminate.
Defined.


(** * Further properties of [writerator.py] *)

(** ** Output file names *)

Lemma length_append (a b : string) :
  String.length (a ++ b) = String.length a + String.length b.
Proof. induction a as [|c a IH]; simpl; [reflexivity|now rewrite IH]. Qed.

Lemma count_append (c : ascii) (a b : string) :
  Py.count c (a ++ b) = Py.count c a + Py.count c b.
Proof. induction a as [|d a IH]; simpl; [reflexivity|rewrite IH; lia]. Qed.

Lemma get_filenames_returned (s filename_in filename_out : string) :
  get_filenames s = Returned (filename_in, filename_out) ->
  filename_in = s /\
  exists name extension,
    s = name ++ "." ++ extension /\
    filename_out = name ++ "_out" ++ "." ++ extension /\
    contains "." name = false /\ contains "." extension = false.
Proof.
  unfold get_filenames.
  pose proof (join_split "." s) as Hjoin.
  pose proof (split_pieces_clean "." s) as Hclean.
  destruct (split "." s) as [|name [|extension [|x r]]]; try discriminate.
  intros [= <- <-]. split; [reflexivity|].
  apply Forall_cons_iff in Hclean as [Hn Hrest].
  apply Forall_cons_iff in Hrest as [He _].
  exists name, extension. simpl in Hjoin. simpl. rewrite Hjoin. auto.
Qed.

Lemma get_filenames_one_dot_returns (s : string) :
  Py.count "." s = 1 -> exists out, get_filenames s = Returned (s, out).
Proof.
  intros Hc. unfold get_filenames.
  pose proof (length_split "." s) as Hlen. rewrite Hc in Hlen.
  destruct (split "." s) as [|name [|extension [|x r]]]; try discriminate.
  eexists. reflexivity.
Qed.

(** The output file is never the input file: its name is four characters
    longer, and it has exactly one dot again, so that it is accepted as an
    input name in turn. *)
Theorem get_filenames_output_differs (s filename_in filename_out : string) :
  get_filenames s = Returned (filename_in, filename_out) ->
  filename_out <> s /\
  String.length filename_out = String.length s + 4 /\
  Py.count "." filename_out = 1 /\
  exists next, get_filenames filename_out = Returned (filename_out, next).
Proof.
  intros Hg.
  destruct (get_filenames_returned _ _ _ Hg)
    as (_ & name & extension & -> & -> & Hn & He).
  apply contains_count in Hn. apply contains_count in He.
  assert (Hlen : String.length (name ++ "_out" ++ "." ++ extension)
                 = String.length (name ++ "." ++ extension) + 4).
  { rewrite !length_append. simpl. lia. }
  assert (Hdots : Py.count "." (name ++ "_out" ++ "." ++ extension) = 1).
  { rewrite !count_append, Hn, He. reflexivity. }
  split; [intros E; rewrite E in Hlen; lia|].
  split; [exact Hlen|]. split; [exact Hdots|].
  now apply get_filenames_one_dot_returns.
Qed.

Lemma get_filenames_output_differs_witness :
  "notes_out.txt" <> "notes.txt" /\
  exists next, get_filenames "notes_out.txt" = Returned ("notes_out.txt", next).
Proof.
  destruct (get_filenames_output_differs "notes.txt" "notes.txt" "notes_out.txt"
              eq_refl) as (Hne & _ & _ & Hnext).
  split; [exact Hne|exact Hnext].
Defined.

(** ** Formatted rankings, continued *)

Lemma firstn_more {A} (l : list A) (n m : nat) :
  n <= m -> firstn m l = (firstn n l ++ firstn (m - n) (skipn n l))%list.
Proof.
  revert l m. induction n as [|n IH]; intros l m Hle.
  - now rewrite Nat.sub_0_r.
  - destruct m as [|m]; [lia|]. destruct l as [|x l]; simpl.
    + now rewrite firstn_nil.
    + rewrite (IH l m) by lia. reflexivity.
Qed.

(** Asking for more results only appends lines: the output for a smaller
    number to show is a prefix of the output for a larger one. *)
Theorem generate_ranked_list_output_prefix (rank_list : ranking) (n m : Z) :
  (n <= m)%Z ->
  exists lines more,
    generate_ranked_list_output rank_list n = Returned lines /\
    generate_ranked_list_output rank_list m = Returned (lines ++ more)%list.
Proof.
  intros Hle. rewrite !generate_ranked_list_output_eq.
  eexists. eexists. split; [reflexivity|].
  rewrite (firstn_more rank_list (Z.to_nat n) (Z.to_nat m)) by lia.
  now rewrite filter_app, map_app.
Qed.

Lemma generate_ranked_list_output_prefix_witness :
  exists lines more,
    generate_ranked_list_output [("the", 2%Z); ("of", 0%Z); ("cat", 1%Z)] 1
      = Returned lines /\
    generate_ranked_list_output [("the", 2%Z); ("of", 0%Z); ("cat", 1%Z)] 3
      = Returned (lines ++ more)%list.
Proof.
  apply (generate_ranked_list_output_prefix
           [("the", 2%Z); ("of", 0%Z); ("cat", 1%Z)] 1 3).
  discriminate.
Defined.

Lemma filter_shown_zero (r : ranking) :
  Forall (fun p => snd p = 0%Z) r -> filter shown r = [].
Proof.
  induction 1 as [|p r Hp _ IH]; simpl; [reflexivity|].
  unfold shown at 1. now rewrite Hp.
Qed.

Lemma filter_shown_firstn (r : ranking) (n : nat) :
  StronglySorted count_ge r -> Forall (fun p => (0 <= snd p)%Z) r ->
  filter shown (firstn n r) = firstn n (filter shown r).
Proof.
  intros Hs. revert n. induction Hs as [|p r Hs IH Hp]; intros n Hnn.
  - destruct n; reflexivity.
  - apply Forall_cons_iff in Hnn as [Hp0 Hnn].
    destruct n as [|n]; [reflexivity|].
    cbn [firstn filter]. destruct (shown p) eqn:E.
    + cbn [firstn]. now rewrite IH.
    + unfold shown in E. apply negb_false_iff, Z.eqb_eq in E.
      assert (Hall : Forall (fun q => snd q = 0%Z) r).
      { apply Forall_forall. intros q Hq.
        pose proof (proj1 (Forall_forall _ _) Hp q Hq) as Hge.
        pose proof (proj1 (Forall_forall _ _) Hnn q Hq) as Hq0.
        unfold count_ge in Hge. cbv beta in Hq0. lia. }
      rewrite (filter_shown_zero r Hall). cbn [firstn].
      apply filter_shown_zero, Forall_forall. intros q Hq.
      apply (proj1 (Forall_forall _ _) Hall).
      rewrite <- (firstn_skipn n r). apply in_or_app. now left.
Qed.

(** For a ranking sorted by count, larger first, without negative counts,
    the limit and the suppression of zero counts do not interfere: the
    output is the first lines of the formatted non-zero entries, exactly
    as many as the number to show unless fewer entries are non-zero. *)
Theorem generate_ranked_list_output_sorted (rank_list : ranking)
    (number_to_show : Z) :
  StronglySorted count_ge rank_list ->
  Forall (fun p => (0 <= snd p)%Z) rank_list ->
  exists lines,
    generate_ranked_list_output rank_list number_to_show = Returned lines /\
    lines = firstn (Z.to_nat number_to_show)
              (map ranked_line (filter shown rank_list)) /\
    List.length lines
      = Nat.min (Z.to_nat number_to_show) (List.length (filter shown rank_list)).
Proof.
  intros Hs Hnn. rewrite generate_ranked_list_output_eq.
  eexists. split; [reflexivity|].
  rewrite filter_shown_firstn by assumption.
  rewrite <- firstn_map. split; [reflexivity|].
  now rewrite length_firstn, length_map.
Qed.

Lemma generate_ranked_list_output_sorted_witness :
  exists lines,
    generate_ranked_list_output [("cat", 4%Z); ("the", 2%Z); ("ran", 0%Z)] 5
      = Returned lines /\
    List.length lines = 2.
Proof.
  destruct (generate_ranked_list_output_sorted
              [("cat", 4%Z); ("the", 2%Z); ("ran", 0%Z)] 5)
    as (lines & Hr & _ & Hlen).
  - repeat (apply SSorted_cons; [|repeat apply Forall_cons;
                                   try apply Forall_nil; discriminate]).
    apply SSorted_nil.
  - repeat apply Forall_cons; try apply Forall_nil; discriminate.
  - exists lines. split; [exact Hr|exact Hlen].
Defined.

(** On a ranking that is not sorted the limit is applied first: an entry
    of count zero among the first uses up a place. *)
Example generate_ranked_list_output_unsorted :
  generate_ranked_list_output [("of", 0%Z); ("the", 2%Z)] 1 = Returned [].
Proof. reflexivity. Qed.

(** *** A line determines its entry *)

Lemma str_of_int_inj (n m : Z) : str_of_int n = str_of_int m -> n = m.
Proof.
  unfold str_of_int. intros E.
  assert (Hok : forall z, Z.to_int z <> Decimal.Pos Decimal.Nil /\
                          Z.to_int z <> Decimal.Neg Decimal.Nil).
  { intros [|p|p]; simpl; split; try discriminate; intros [= Hp];
      now apply (DecimalPos.Unsigned.to_uint_nonnil p). }
  apply DecimalZ.to_int_inj.
  assert (Some (Z.to_int n) = Some (Z.to_int m)) as [= ->]; [|reflexivity].
  rewrite <- (NilZero.isi (Z.to_int n)), <- (NilZero.isi (Z.to_int m));
    try apply Hok.
  now rewrite E.
Qed.

Lemma string_of_uint_no_colon (d : Decimal.uint) :
  contains ":" (NilEmpty.string_of_uint d) = false.
Proof. induction d; simpl; auto. Qed.

Lemma str_of_int_no_colon (n : Z) : contains ":" (str_of_int n) = false.
Proof.
  unfold str_of_int, NilZero.string_of_int, NilZero.string_of_uint.
  destruct (Z.to_int n) as [d|d]; destruct d; simpl;
    auto using string_of_uint_no_colon.
Qed.

Lemma append_colon_inj (a b x y : string) :
  contains ":" a = false -> contains ":" b = false ->
  a ++ String ":" x = b ++ String ":" y -> a = b /\ x = y.
Proof.
  revert b. induction a as [|c a IH]; intros [|d b]; simpl; intros Ha Hb E.
  - injection E as ->. auto.
  - injection E as <- _. discriminate Hb.
  - injection E as -> _. discriminate Ha.
  - injection E as -> E.
    destruct (Ascii.eqb d ":"); [discriminate|]. simpl in Ha, Hb.
    destruct (IH b Ha Hb E) as [-> ->]. auto.
Qed.

Lemma append_nl_inj (a b : string) : a ++ nl = b ++ nl -> a = b.
Proof.
  revert b. induction a as [|c a IH]; intros [|d b]; simpl; intros E.
  - reflexivity.
  - injection E as _ E. destruct b; discriminate E.
  - injection E as _ E. destruct a; discriminate E.
  - injection E as -> E. now rewrite (IH b E).
Qed.

(** Two entries with the same formatted line are the same entry: the
    count and the element can be read back from the line, whatever
    characters the element contains. *)
Theorem ranked_line_inj (entry entry' : string * Z) :
  ranked_line entry = ranked_line entry' -> entry = entry'.
Proof.
  destruct entry as [e c], entry' as [e' c']. unfold ranked_line. intros E.
  apply append_colon_inj in E as [Hc He]; try apply str_of_int_no_colon.
  injection He as He. apply append_nl_inj in He. apply str_of_int_inj in Hc.
  now subst.
Qed.

Lemma ranked_line_inj_witness :
  ("a: b", 12%Z) = ("a: b", 12%Z) /\ ranked_line ("a: b", 12%Z) = "12: a: b" ++ nl.
Proof.
  split; [|reflexivity].
  apply (ranked_line_inj ("a: b", 12%Z) ("a: b", 12%Z)). reflexivity.
Defined.

(** ** Writing and printing the output lines *)

Lemma writelines_strings (lines : list string) (rest : list value) (content : string) :
  writelines (map Str lines ++ rest)%list content
    = writelines rest (content ++ String.concat "" lines).
Proof.
  revert content. induction lines as [|l lines IH]; intros content; simpl.
  - now rewrite append_empty_r.
  - rewrite IH. f_equal. rewrite append_assoc. f_equal.
    destruct lines; simpl; [now rewrite append_empty_r|reflexivity].
Qed.

(** [output_to_file] writes the lines in order, without adding anything,
    up to the first line that is not a string; there it raises
    [TypeError], and the lines before it stay written.  A list of strings
    is written whole. *)
Theorem output_to_file_until_not_str (filename : string) (lines : list string)
    (v : value) (rest : list value) :
  is_str v = false ->
  output_to_file filename (map Str lines ++ v :: rest)%list
    = (String.concat "" lines, Raised TypeError) /\
  output_to_file filename (map Str lines)
    = (String.concat "" lines, Returned tt).
Proof.
  intros Hv. unfold output_to_file. split.
  - rewrite writelines_strings. destruct v; [discriminate|reflexivity..].
  - rewrite <- (List.app_nil_r (map Str lines)), writelines_strings. reflexivity.
Qed.

Lemma output_to_file_until_not_str_witness :
  output_to_file "text_out.txt"
    (map Str [("2: the" ++ nl)%string; ("2: cat" ++ nl)%string] ++ [Int 7])%list
    = (String.concat "" ["2: the" ++ nl; "2: cat" ++ nl], Raised TypeError).
Proof.
  apply (proj1 (output_to_file_until_not_str "text_out.txt"
                  ["2: the" ++ nl; "2: cat" ++ nl] (Int 7) [] eq_refl)).
Defined.

Section Console.

Variable str_float : Q -> string.

Lemma output_to_console_from (lines : list string) (printed : string) :
  fold_left (fun printed line => printed ++ str_value str_float line ++ nl)
    (map Str lines) printed
    = printed ++ String.concat "" (map (fun l => l ++ nl) lines).
Proof.
  revert printed. induction lines as [|l lines IH]; intros printed; simpl.
  - now rewrite append_empty_r.
  - rewrite IH, append_assoc. f_equal.
    destruct lines; simpl; [now rewrite append_empty_r|reflexivity].
Qed.

Lemma length_concat_nl (lines : list string) :
  String.length (String.concat "" (map (fun l => l ++ nl) lines))
    = String.length (String.concat "" lines) + List.length lines.
Proof.
  induction lines as [|l lines IH]; [reflexivity|].
  destruct lines as [|l' lines].
  - simpl. rewrite length_append. simpl. lia.
  - change (String.concat "" (map (fun l => l ++ nl) (l :: l' :: lines)))
      with ((l ++ nl) ++ String.concat "" (map (fun l => l ++ nl) (l' :: lines))).
    change (String.concat "" (l :: l' :: lines))
      with (l ++ String.concat "" (l' :: lines)).
    rewrite !length_append, IH. simpl. lia.
Qed.

(** On the console every line is followed by one more newline than in the
    output file: for the same lines the printed text is the file content
    with a newline added after each line, hence longer by the number of
    lines. *)
Theorem console_adds_newlines (filename : string) (lines : list string) :
  output_to_console str_float (map Str lines)
    = String.concat "" (map (fun l => l ++ nl) lines) /\
  fst (output_to_file filename (map Str lines)) = String.concat "" lines /\
  String.length (output_to_console str_float (map Str lines))
    = String.length (fst (output_to_file filename (map Str lines)))
      + List.length lines.
Proof.
  assert (Hc : output_to_console str_float (map Str lines)
               = String.concat "" (map (fun l => l ++ nl) lines)).
  { unfold output_to_console. now rewrite output_to_console_from. }
  assert (Hf : fst (output_to_file filename (map Str lines))
               = String.concat "" lines).
  { unfold output_to_file.
    rewrite <- (List.app_nil_r (map Str lines)), writelines_strings. reflexivity. }
  rewrite Hc, Hf. repeat split. apply length_concat_nl.
Qed.

End Console.

(** ** [get_output]: results, log and exit *)

(** Case analysis on the innermost scrutinee of the goal. *)
Ltac branch :=
  repeat (simpl;
          match goal with
          | |- context [match ?x with _ => _ end] =>
              lazymatch x with
              | context [match _ with _ => _ end] => fail
              | _ => destruct x eqn:?
              end
          end).

Ltac open_get_output :=
  unfold get_output, expand_type, get_count_output, get_totalcount_output,
    get_match_output, get_poem_output, get_readability_test_output,
    get_Gunning_output, lbind, lift, lret, logging_error, sys_exit, Py.bind.

Section GetOutputFacts.

Context {Text : Type} `{TextAPI Text}.

(** [get_output] logs an error only when it is about to leave the
    process, and then leaves it with status 0: its log is empty, or holds
    one message and the call ends with [sys.exit(0)].  Whatever the text
    object does, an error that was logged is never followed by a result,
    an exception or a non-zero exit status. *)
Theorem get_output_logs_only_to_exit (text : Text) (a : args) (cfg : config)
    (e : env) :
  fst (get_output text a cfg e) = [] \/
  exists msg, get_output text a cfg e = ([msg], Exited 0%Z).
Proof. open_get_output. branch; simpl; eauto. Qed.

(** [get_output] ends without a value exactly for the argument
    combinations of [no_result_args]: the count command without a
    non-empty element and without the total count option, the info
    command without an option, the batch command without an option, and
    no command at all.  No outcome of the text object leads there. *)
Theorem get_output_none_iff (text : Text) (a : args) (cfg : config) (e : env) :
  snd (get_output text a cfg e) = Returned None <-> no_result_args a = true.
Proof.
  unfold no_result_args. open_get_output.
  branch; simpl; split; intros E; try discriminate; try reflexivity;
    try congruence.
Qed.

Lemma get_output_no_result (text : Text) (a : args) (cfg : config) (e : env) :
  no_result_args a = true -> get_output text a cfg e = ([], Returned None).
Proof.
  unfold no_result_args. open_get_output.
  branch; simpl; intros E; try discriminate; try reflexivity; try congruence.
Qed.

(** The poem command without any of its three options uses its pattern
    variable unbound: [get_output] raises [UnboundLocalError] and the
    generator is not called. *)
Theorem get_output_poem_without_pattern (text : Text) (a : args) (cfg : config)
    (e : env) :
  command a = Some "poem" ->
  truthy_opt truthy_list (syllables a) = false ->
  truthy_opt truthy_str (preset a) = false ->
  truthy_opt truthy_list (shortcut a) = false ->
  get_output text a cfg e = ([], Raised UnboundLocalError).
Proof.
  intros Hc Hl Hp Hs. unfold get_output, command_is, poem_syllables_pattern.
  rewrite Hc, Hl, Hp, Hs. reflexivity.
Qed.

End GetOutputFacts.

Lemma get_output_none_iff_witness :
  snd (get_output sample_text (element_args "count" "w" (Some "") false "" 10)
         [] sample_env) = Returned None /\
  no_result_args (element_args "count" "w" (Some "cat") false "" 10) = false.
Proof.
  split.
  - apply (proj2 (get_output_none_iff sample_text
                    (element_args "count" "w" (Some "") false "" 10)
                    [] sample_env)).
    reflexivity.
  - destruct (no_result_args (element_args "count" "w" (Some "cat") false "" 10))
      eqn:E; [|reflexivity].
    apply (proj2 (get_output_none_iff sample_text _ [] sample_env)) in E.
    discriminate E.
Defined.

Lemma get_output_poem_without_pattern_witness :
  get_output sample_text (poem_args None None None 3) [] sample_env
    = ([], Raised UnboundLocalError).
Proof.
  apply (get_output_poem_without_pattern sample_text (poem_args None None None 3));
    reflexivity.
Defined.

(** ** [main] *)

Lemma get_filenames_not_one_dot (s : string) :
  Py.count "." s <> 1 -> get_filenames s = Raised ValueError.
Proof.
  intros Hc. unfold get_filenames.
  pose proof (length_split "." s) as Hlen.
  destruct (split "." s) as [|name [|extension [|x r]]];
    simpl in Hlen; try reflexivity; lia.
Qed.

Section MainFacts.

Context {Text : Type} `{TextAPI Text}.
Variable str_args : args -> string.
Variable open_text : string -> outcome Text.
Variable str_float : Q -> string.

(** A file name without exactly one dot stops [main] with [ValueError]
    before the text is opened: nothing is printed or written, whatever the
    command, and only the debug line can be on the error stream. *)
Theorem main_bad_filename (a : args) (cfg : config) (e : env) :
  Py.count "." (file_in a) <> 1 ->
  main str_args open_text str_float a cfg e
    = stopped (logging_debug (set_logging_level (debug a)) (str_args a))
              (Raised ValueError).
Proof.
  intros Hc. unfold main. now rewrite (get_filenames_not_one_dot _ Hc).
Qed.

(** When [get_output] ends without a value, [main] raises [TypeError]
    on either output path and prints nothing; with the output option the
    output file has been created empty. *)
Theorem main_no_result (a : args) (cfg : config) (e : env) (text : Text)
    (filename_in filename_out : string) :
  no_result_args a = true ->
  get_filenames (file_in a) = Returned (filename_in, filename_out) ->
  open_text filename_in = Returned text ->
  main str_args open_text str_float a cfg e
    = {| stderr := logging_debug (set_logging_level (debug a)) (str_args a);
         stdout := "";
         written := if output a then Some (filename_out, "") else None;
         ending := Raised TypeError |}.
Proof.
  intros Hn Hf Ht. unfold main.
  rewrite Hf, Ht, (get_output_no_result text a cfg e Hn), List.app_nil_r.
  destruct (output a); reflexivity.
Qed.

(** With an invalid element type code the match command, and the count
    command with one of its options, end [main] through [sys.exit(0)]
    after the error message; the output file is not created even when the
    output option is set. *)
Theorem main_invalid_type (a : args) (cfg : config) (e : env) (text : Text)
    (filename_in filename_out : string) :
  valid_type_code (type a) = false ->
  command a = Some "match" \/
  (command a = Some "count" /\
   (truthy_opt truthy_str (count a) = true \/ totalcount a = true)) ->
  get_filenames (file_in a) = Returned (filename_in, filename_out) ->
  open_text filename_in = Returned text ->
  main str_args open_text str_float a cfg e
    = stopped (logging_debug (set_logging_level (debug a)) (str_args a)
               ++ [("No such element type cannot expand: " ++ type a)%string])%list
              (Exited 0%Z).
Proof.
  intros Hv Hc Hf Ht. unfold main.
  now rewrite Hf, Ht, (get_output_invalid_type text a cfg e Hv Hc).
Qed.

End MainFacts.

Lemma main_bad_filename_witness :
  main (fun _ => "args") (fun _ => Returned sample_text) (fun _ => "0.0")
       (bare_args "README" true) [] sample_env
    = stopped [] (Raised ValueError) /\
  main (fun _ => "args") (fun _ => Returned sample_text) (fun _ => "0.0")
       (to_file (element_args "count" "w" None true "" 3)) [] sample_env
    = {| stderr := []; stdout := "";
         written := Some ("text_out.txt",
                          ("2: the" ++ nl) ++ ("2: cat" ++ nl) ++ ("1: sat" ++ nl));
         ending := Returned tt |}.
Proof.
  split; [|reflexivity].
  apply (main_bad_filename (fun _ => "args") (fun _ => Returned sample_text)
           (fun _ => "0.0") (bare_args "README" true) [] sample_env).
  simpl. lia.
Defined.

Lemma main_no_result_witness :
  main (fun _ => "args") (fun _ => Returned sample_text) (fun _ => "0.0")
       (bare_args "text.txt" true) [] sample_env
    = {| stderr := []; stdout := "";
         written := Some ("text_out.txt", ""); ending := Raised TypeError |}.
Proof.
  apply (main_no_result (fun _ => "args") (fun _ => Returned sample_text)
           (fun _ => "0.0") (bare_args "text.txt" true) [] sample_env
           sample_text "text.txt" "text_out.txt"); reflexivity.
Defined.

Lemma main_invalid_type_witness :
  main (fun _ => "args") (fun _ => Returned sample_text) (fun _ => "0.0")
       (to_file (element_args "match" "x" None false "a~t" 10)) [] sample_env
    = stopped ["No such element type cannot expand: x"] (Exited 0%Z).
Proof.
  apply (main_invalid_type (fun _ => "args") (fun _ => Returned sample_text)
           (fun _ => "0.0")
           (to_file (element_args "match" "x" None false "a~t" 10)) [] sample_env
           sample_text "text.txt" "text_out.txt");
    [reflexivity|left; reflexivity|reflexivity|reflexivity].
Defined.

(** ** Reading the poem output back *)

Lemma chop_nl (line : string) : chop (line ++ nl) = line.
Proof.
  induction line as [|c line IH]; [reflexivity|].
  simpl. rewrite IH. destruct line; reflexivity.
Qed.

Lemma line_is_not_separator (line : string) :
  line <> "" -> String.eqb (line ++ nl) nl = false.
Proof.
  intros Hne. apply String.eqb_neq. intros E.
  destruct line as [|c line]; [contradiction|].
  injection E as _ E. destruct line; discriminate E.
Qed.

Lemma unformat_from_poem (p : poem) (current : poem) (rest : list string) :
  Forall (fun line => line <> "") p ->
  unformat_from current
    (map (fun line => (line ++ nl)%string) p ++ nl :: rest)%list
    = (current ++ p)%list :: unformat_from [] rest.
Proof.
  intros Hp. revert current. induction Hp as [|line p Hline _ IH]; intros current.
  - simpl. now rewrite List.app_nil_r.
  - cbn [map List.app unformat_from].
    rewrite (line_is_not_separator line Hline), chop_nl, IH, <- List.app_assoc.
    reflexivity.
Qed.

Lemma unformat_formatted (poems : list poem) :
  Forall (Forall (fun line => line <> "")) poems ->
  unformat (formatted_poems poems) = poems.
Proof.
  unfold unformat. induction 1 as [|p poems Hp _ IH]; [reflexivity|].
  cbn [formatted_poems flat_map]. rewrite <- List.app_assoc.
  cbn [List.app]. rewrite unformat_from_poem by assumption.
  fold (formatted_poems poems). now rewrite IH.
Qed.

Section PoemReadBack.

Context {Text : Type} `{TextAPI Text}.

(** The output of the poem command can be read back: when no generated
    line is empty, splitting the output at the blank separator lines and
    removing the final newline of each line gives the poems of the
    generator, for any generator. *)
Theorem get_poem_output_read_back (text : Text) (pattern : list Z) (n : Z)
    (rnd : randomness) (poems : list poem) :
  generate_poems text pattern n rnd = Returned poems ->
  Forall (Forall (fun line => line <> "")) poems ->
  exists output_lines,
    get_poem_output text pattern n rnd = Returned output_lines /\
    unformat output_lines = poems.
Proof.
  intros Hg Hne. exists (formatted_poems poems).
  rewrite get_poem_output_formatted, Hg. split; [reflexivity|].
  now apply unformat_formatted.
Qed.

End PoemReadBack.

Lemma get_poem_output_read_back_witness :
  exists output_lines,
    get_poem_output sample_text [1; 2]%Z 1 (fun _ => 0) = Returned output_lines /\
    unformat output_lines = [["The"; "The The"]].
Proof.
  apply (get_poem_output_read_back sample_text [1; 2]%Z 1 (fun _ => 0)
           [["The"; "The The"]]); [reflexivity|].
  repeat apply Forall_cons; try apply Forall_nil; discriminate.
Defined.

(** With an empty line the output is ambiguous: an empty first line reads
    as the separator of an empty poem. *)
Example formatted_poems_empty_line :
  formatted_poems [[""; "a"]] = formatted_poems [[]; ["a"]].
Proof. reflexivity. Qed.

(** ** Batch output *)




Section Batch.

Context {Text : Type} `{TextAPI Text}.


End Batch.


(** ** The count command on the console and in a file *)

Section CountPaths.

Context {Text : Type} `{TextAPI Text}.
Variable str_args : args -> string.
Variable open_text : string -> outcome Text.
Variable str_float : Q -> string.

(** The count of an element is printed on the console, as its decimal
    notation and a newline; with the output option the same command
    raises [TypeError] and leaves the output file empty. *)
Theorem main_count_console_and_file (a : args) (cfg : config) (e : env)
    (text : Text) (filename_in filename_out element element_type : string)
    (n : Z) :
  command a = Some "count" ->
  count a = Some element -> element <> "" ->
  expand_type (type a) = ([], Returned element_type) ->
  count_occurences text element element_type = Returned n ->
  get_filenames (file_in a) = Returned (filename_in, filename_out) ->
  open_text filename_in = Returned text ->
  output a = false ->
  main str_args open_text str_float a cfg e
    = {| stderr := logging_debug (set_logging_level (debug a)) (str_args a);
         stdout := str_of_int n ++ nl;
         written := None;
         ending := Returned tt |} /\
  main str_args open_text str_float (to_file a) cfg e
    = {| stderr := logging_debug (set_logging_level (debug a))
                     (str_args (to_file a));
         stdout := "";
         written := Some (filename_out, "");
         ending := Raised TypeError |}.
Proof.
  intros Hc He Hne Hx Hn Hf Ht Ho.
  assert (Hout : forall b, command b = Some "count" -> count b = Some element ->
                           type b = type a ->
                           get_output text b cfg e = ([], Returned (Some [Int n]))).
  { intros b Hcb Heb Htb. unfold get_output, command_is.
    rewrite Hcb, Heb, Htb. simpl.
    destruct element; [contradiction|]. simpl. rewrite Hx. simpl.
    unfold get_count_output. now rewrite Hn. }
  split; unfold main.
  - rewrite Hf, Ht, (Hout a Hc He eq_refl), Ho, List.app_nil_r. reflexivity.
  - simpl. rewrite Hf, Ht, (Hout (to_file a)) by assumption || reflexivity.
    now rewrite List.app_nil_r.
Qed.

End CountPaths.

Lemma main_count_console_and_file_witness :
  main (fun _ => "args") (fun _ => Returned sample_text) (fun _ => "0.0")
       (element_args "count" "w" (Some "cat") false "" 10) [] sample_env
    = {| stderr := []; stdout := "2" ++ nl; written := None;
         ending := Returned tt |} /\
  main (fun _ => "args") (fun _ => Returned sample_text) (fun _ => "0.0")
       (to_file (element_args "count" "w" (Some "cat") false "" 10)) [] sample_env
    = {| stderr := []; stdout := ""; written := Some ("text_out.txt", "");
         ending := Raised TypeError |}.
Proof.
  apply (main_count_console_and_file (fun _ => "args")
           (fun _ => Returned sample_text) (fun _ => "0.0")
           (element_args "count" "w" (Some "cat") false "" 10) [] sample_env
           sample_text "text.txt" "text_out.txt" "cat" "words" 2);
    try reflexivity; discriminate.
Defined.
